(** * Lemonade insurance platform: claims risk-decision pipeline

    A shallow embedding of

    - [src/services/fraud-detection/src/models/ensemble.py]
      ([FraudDetectionEnsemble.evaluate], [make_decision]), and
    - [src/services/claims-service/src/app.py]
      ([submit_claim], [validate_policy], [check_duplicate_claim],
      [calculate_payout]),

    followed by the properties of the pipeline that were checked against it.

    Numbers.  Python's [float] is IEEE binary64, and so is Rocq's primitive
    [float]: a literal such as [0.15] denotes the same double in both, and
    [<?], [-] compute the same results.  An [int] literal that the source
    mixes with floats ([0], [1]) is written as the float of the same value.

    Exceptions.  A provider's [predict_proba] that raises is a [None]; the
    claims service runs in a state-and-exception monad over the Redis store
    and the log of calls made to the other collaborators. *)

From Stdlib Require Import PrimFloat ZArith.
From stdpp Require Import gmap strings list.

#[local] Set Warnings "-inexact-float".
#[local] Open Scope string_scope.

(** ** Python built-ins *)

Module Py.

(** [x < y] and [x > y] on floats. *)
Definition lt (x y : float) : bool := PrimFloat.ltb x y.
Definition gt (x y : float) : bool := PrimFloat.ltb y x.

(** [min(a, b)]: the first argument is kept unless the second one is
    strictly smaller ([if b < a]). *)
Definition min (a b : float) : float := if lt b a then b else a.

(** [max(a, b)]: the first argument is kept unless the second one is
    strictly greater ([if b > a]). *)
Definition max (a b : float) : float := if gt b a then b else a.

(** A [dict] with string keys, in insertion order ([list(d.values())]
    depends on it). *)
Definition dict (V : Type) : Type := list (string * V).

(** [d.get(k)] *)
Fixpoint lookup {V} (d : dict V) (k : string) : option V :=
  match d with
  | [] => None
  | (k', v) :: rest => if String.eqb k' k then Some v else lookup rest k
  end.

(** [d.get(k, default)] *)
Definition get {V} (d : dict V) (k : string) (default : V) : V :=
  match lookup d k with
  | Some v => v
  | None => default
  end.

(** [d[k] = v]: an existing key keeps its position, a new one goes last. *)
Fixpoint set {V} (d : dict V) (k : string) (v : V) : dict V :=
  match d with
  | [] => [(k, v)]
  | (k', v') :: rest =>
      if String.eqb k' k then (k', v) :: rest else (k', v') :: set rest k v
  end.

(** [list(d.keys())], [list(d.values())] *)
Definition keys {V} (d : dict V) : list string := map fst d.
Definition values {V} (d : dict V) : list V := map snd d.

End Py.

(** ** ensemble.py *)

Module Ensemble.

Section Ensemble.

(** [claim_data], [user_history] and the extracted features are opaque
    dictionaries to the code modelled here. *)
Context {ClaimData UserHistory Features : Type}.

(** A scoring model: [predict_proba(features)] returns a score or
    raises ([None]). *)
Record Model : Type := { predict_proba : Features -> option float }.

(** The dictionary returned by [evaluate]. *)
Record Evaluation : Type := {
  risk_score : float;
  risk_level : string;
  confidence : float;
  is_anomaly : bool;
  model_breakdown : Py.dict float;
  decision : string;
  review_reasons : list string
}.

(** [self].  [models] is the dictionary built by [__init__];
    [meta_classifier] stands for
    [self.meta_classifier.predict_proba(x)[0][1]] and [anomaly_detector]
    for [self.anomaly_detector.predict(x)[0]] (scikit-learn estimators).
    The methods [extract_features], [score_to_level],
    [calculate_confidence] and [get_review_reasons] are called by
    [evaluate] but their bodies are not part of the source: they are
    fields of [self]. *)
Record FraudDetectionEnsemble : Type := {
  models : Py.dict Model;
  meta_classifier : list float -> float;
  anomaly_detector : list float -> Z;
  extract_features : ClaimData -> UserHistory -> Features;
  score_to_level : float -> string;
  calculate_confidence : Py.dict float -> float;
  get_review_reasons : Py.dict float -> list string
}.

(** [make_decision(self, risk_score, is_anomaly, model_scores)] *)
Definition make_decision (risk_score : float) (is_anomaly : bool)
    (model_scores : Py.dict float) : string :=
  (* Auto-approve criteria (must meet ALL) *)
  if Py.lt risk_score 0.15
     && negb is_anomaly
     && Py.lt (Py.get model_scores "behavioral_biometrics" 1%float) 0.2
     && Py.lt (Py.get model_scores "device_fingerprint" 1%float) 0.3
  then "instant_approve"
  (* Auto-reject criteria *)
  else if Py.gt risk_score 0.85
     || Py.gt (Py.get model_scores "identity_graph" 0%float) 0.9
     || Py.gt (Py.get model_scores "network_analysis" 0%float) 0.95
  then "reject"
  (* Manual review for everything else *)
  else "review".

(** The [try]/[except] in the loop of [evaluate]: the score of a model
    that raises is 0.5. *)
Definition score_or_neutral (model : Model) (features : Features) : float :=
  match predict_proba model features with
  | Some score => score
  | None => 0.5%float
  end.

(** [for name, model in self.models.items(): ...] *)
Fixpoint collect_scores (items : list (string * Model))
    (features : Features) (model_scores : Py.dict float) : Py.dict float :=
  match items with
  | [] => model_scores
  | (name, model) :: rest =>
      collect_scores rest features
        (Py.set model_scores name (score_or_neutral model features))
  end.

(** [evaluate(self, claim_data, user_history)] *)
Definition evaluate (self : FraudDetectionEnsemble)
    (claim_data : ClaimData) (user_history : UserHistory) : Evaluation :=
  let features := extract_features self claim_data user_history in
  let model_scores := collect_scores (models self) features [] in
  let ensemble_features := Py.values model_scores in
  let final_risk_score := meta_classifier self ensemble_features in
  let is_anomaly := Z.eqb (anomaly_detector self ensemble_features) (-1) in
  let decision := make_decision final_risk_score is_anomaly model_scores in
  {| risk_score := final_risk_score;
     risk_level := score_to_level self final_risk_score;
     confidence := calculate_confidence self model_scores;
     is_anomaly := is_anomaly;
     model_breakdown := model_scores;
     decision := decision;
     review_reasons := get_review_reasons self model_scores |}.

End Ensemble.

Arguments Model : clear implicits.
Arguments FraudDetectionEnsemble : clear implicits.

End Ensemble.

(** ** app.py *)

Module Claims.

(** *** Data *)

(** [ClaimRequest].  [incident_date] is a timestamp in seconds;
    [location] is the [lat]/[lng] dictionary. *)
Record ClaimRequest : Type := {
  claim_id : string;
  policy_id : string;
  user_id : string;
  claim_type : string;
  incident_date : Z;
  description : string;
  estimated_amount : float;
  video_evidence_url : option string;
  photos : list string;
  location : Py.dict float
}.

(** The constraints that pydantic enforces on a [ClaimRequest]:
    the [Literal] of claim types and [Field(..., gt=0, lt=1000000)]. *)
Definition claim_types : list string :=
  ["theft"; "water_damage"; "fire"; "liability"; "medical"].

Definition valid_claim (claim : ClaimRequest) : bool :=
  existsb (String.eqb (claim_type claim)) claim_types
  && Py.gt (estimated_amount claim) 0
  && Py.lt (estimated_amount claim) 1000000.

(** [ClaimResponse], without [processing_time_ms] (a wall-clock
    measurement). *)
Record ClaimResponse : Type := {
  response_claim_id : string;
  response_status : string;
  payout_amount : option float;
  confidence_score : float;
  next_steps : string
}.

(** The policy dictionary: [policy['status']],
    [policy['coverage_limits']], [policy['deductible']]. *)
Record Policy : Type := {
  status : string;
  coverage_limits : Py.dict float;
  deductible : float
}.

(** What [fraud_detection.evaluate(claim)] returns, as far as
    [submit_claim] reads it. *)
Record FraudScore : Type := {
  score : float;
  risk_level : string;
  confidence : float
}.

(** The result of [check_duplicate_claim]. *)
Record DuplicateCheck : Type := {
  is_duplicate : bool;
  similarity : option float
}.

(** The event sent to the topic [claims.instant_approved] (without its
    timestamp). *)
Record InstantApprovedEvent : Type := {
  event_claim_id : string;
  event_amount : float;
  event_fraud_score : float
}.

(** *** The Redis store and the log of outgoing calls *)

Inductive RedisValue : Type :=
| RString (s : string)
| RSet (members : gset string).

(** A key with its time to live: [expires_at] is the instant (in
    seconds) from which the key is gone. *)
Record RedisEntry : Type := {
  value : RedisValue;
  expires_at : option Z
}.

Inductive RedisCommand : Type :=
| GET (key : string)
| SETEX (key : string) (ttl : Z) (v : string)
| SMEMBERS (key : string)
| SADD (key : string) (member : string)
| EXPIRE (key : string) (ttl : Z).

(** The functions handed to [background_tasks.add_task]. *)
Inductive Task : Type :=
| process_instant_payout (claim : ClaimRequest) (amount : float)
| route_to_adjuster (claim : ClaimRequest) (fraud_score : FraudScore).

Inductive Call : Type :=
| Redis (cmd : RedisCommand)
| FraudEvaluate (claim : ClaimRequest)
| AddTask (task : Task)
| KafkaSend (topic : string) (event : InstantApprovedEvent).

(** The state that the service works on.  [reachable_for] tells for how
    many more commands the Redis server answers: [None] is a server that
    stays up, [Some 0] one that is unreachable.  [calls] is the log of
    the calls made so far, oldest first. *)
Record World : Type := {
  store : gmap string RedisEntry;
  reachable_for : option nat;
  calls : list Call
}.

Inductive Exception : Type :=
| HTTPException (status_code : Z) (detail : string)
| ConnectionError
| ResponseError.

(** *** The monad of the service: state and exceptions *)

Inductive Outcome (A : Type) : Type :=
| Return (a : A) (w : World)
| Raise (e : Exception) (w : World).

Arguments Return {A} a w.
Arguments Raise {A} e w.

Definition M (A : Type) : Type := World -> Outcome A.

Definition ret {A} (a : A) : M A := fun w => Return a w.

Definition raise {A} (e : Exception) : M A := fun w => Raise e w.

Definition bind {A B} (m : M A) (k : A -> M B) : M B :=
  fun w =>
    match m w with
    | Return a w' => k a w'
    | Raise e w' => Raise e w'
    end.

Notation "x <- m ;; k" := (bind m (fun x => k))
  (at level 100, m at next level, right associativity).
Notation "m ;;; k" := (bind m (fun _ => k))
  (at level 100, right associativity).

Definition log (c : Call) : M unit :=
  fun w => Return tt {| store := store w;
                        reachable_for := reachable_for w;
                        calls := calls w ++ [c] |}.

Definition get_store : M (gmap string RedisEntry) :=
  fun w => Return (store w) w.

Definition put_store (s : gmap string RedisEntry) : M unit :=
  fun w => Return tt {| store := s;
                        reachable_for := reachable_for w;
                        calls := calls w |}.

(** One round trip to the server: it raises [ConnectionError] when the
    server is unreachable, and is logged otherwise. *)
Definition round_trip (cmd : RedisCommand) : M unit :=
  fun w =>
    match reachable_for w with
    | Some O => Raise ConnectionError w
    | Some (S n) =>
        Return tt {| store := store w;
                     reachable_for := Some n;
                     calls := calls w ++ [Redis cmd] |}
    | None =>
        Return tt {| store := store w;
                     reachable_for := None;
                     calls := calls w ++ [Redis cmd] |}
    end.

(** The entry of a key at time [now]: an expired key is gone. *)
Definition live (now : Z) (e : RedisEntry) : bool :=
  match expires_at e with
  | None => true
  | Some t => (now <? t)%Z
  end.

Definition find (now : Z) (key : string) (s : gmap string RedisEntry)
    : option RedisEntry :=
  match s !! key with
  | Some e => if live now e then Some e else None
  | None => None
  end.

(** [redis_client.get(key)] *)
Definition redis_get (now : Z) (key : string) : M (option string) :=
  round_trip (GET key) ;;;
  s <- get_store ;;
  match find now key s with
  | None => ret None
  | Some e =>
      match value e with
      | RString v => ret (Some v)
      | RSet _ => raise ResponseError
      end
  end.

(** [redis_client.setex(key, ttl, v)] *)
Definition redis_setex (now : Z) (key : string) (ttl : Z) (v : string)
    : M unit :=
  round_trip (SETEX key ttl v) ;;;
  s <- get_store ;;
  put_store (<[key := {| value := RString v;
                         expires_at := Some (now + ttl)%Z |}]> s).

(** [redis_client.smembers(key)] *)
Definition redis_smembers (now : Z) (key : string) : M (gset string) :=
  round_trip (SMEMBERS key) ;;;
  s <- get_store ;;
  match find now key s with
  | None => ret ∅
  | Some e =>
      match value e with
      | RSet members => ret members
      | RString _ => raise ResponseError
      end
  end.

(** [redis_client.sadd(key, member)] *)
Definition redis_sadd (now : Z) (key : string) (member : string) : M unit :=
  round_trip (SADD key member) ;;;
  s <- get_store ;;
  match find now key s with
  | None =>
      put_store (<[key := {| value := RSet {[member]};
                             expires_at := None |}]> s)
  | Some e =>
      match value e with
      | RSet members =>
          put_store (<[key := {| value := RSet ({[member]} ∪ members);
                                 expires_at := expires_at e |}]> s)
      | RString _ => raise ResponseError
      end
  end.

(** [redis_client.expire(key, ttl)] *)
Definition redis_expire (now : Z) (key : string) (ttl : Z) : M unit :=
  round_trip (EXPIRE key ttl) ;;;
  s <- get_store ;;
  match find now key s with
  | None => ret tt
  | Some e =>
      put_store (<[key := {| value := value e;
                             expires_at := Some (now + ttl)%Z |}]> s)
  end.

(** *** Collaborators

    Functions that the service calls and whose code is not part of the
    source: pydantic's and [json]'s serialisation, the policy service,
    the fraud-detection client and [calculate_similarity]. *)
Record Collaborators : Type := {
  (** [claim.json()] *)
  claim_json : ClaimRequest -> string;
  (** [json.loads(recent_claim_json)] on a member of the claim index *)
  json_loads_claim : string -> ClaimRequest;
  (** [json.dumps(policy)] *)
  json_dumps_policy : Policy -> string;
  (** [json.loads(cached)] on a cached policy *)
  json_loads_policy : string -> option Policy;
  (** [await fetch_policy_from_service(policy_id)] *)
  fetch_policy_from_service : string -> option Policy;
  (** [await fraud_detection.evaluate(claim)] *)
  fraud_detection_evaluate : ClaimRequest -> FraudScore;
  (** [calculate_similarity(claim, recent_claim)] *)
  calculate_similarity : ClaimRequest -> ClaimRequest -> float
}.

Section Service.

Variable env : Collaborators.

(** Every Redis command of one request is issued at time [now]. *)
Variable now : Z.

(** [validate_policy(policy_id, user_id)].  [if cached:] fails on
    [None] and on the empty string. *)
Definition validate_policy (policy_id user_id : string)
    : M (option Policy) :=
  let cache_key := "policy:" ++ policy_id in
  cached <- redis_get now cache_key ;;
  let fetch : M (option Policy) :=
    let policy := fetch_policy_from_service env policy_id in
    match policy with
    | Some p =>
        redis_setex now cache_key 300 (json_dumps_policy env p) ;;;
        ret policy
    | None => ret policy
    end in
  match cached with
  | Some c => if String.eqb c "" then fetch
              else ret (json_loads_policy env c)
  | None => fetch
  end.

(** The loop of [check_duplicate_claim] over the members of the index:
    the similarity of the first member above the threshold, if any. *)
Fixpoint first_similar (claim : ClaimRequest) (recent : list string)
    : option float :=
  match recent with
  | [] => None
  | recent_claim_json :: rest =>
      let recent_claim := json_loads_claim env recent_claim_json in
      let similarity := calculate_similarity env claim recent_claim in
      if Py.gt similarity 0.85 then Some similarity
      else first_similar claim rest
  end.

Definition recent_claims_key (claim : ClaimRequest) : string :=
  "user_claims:" ++ user_id claim ++ ":30d".

(** [check_duplicate_claim(claim)] *)
Definition check_duplicate_claim (claim : ClaimRequest)
    : M DuplicateCheck :=
  let recent_claims_key := recent_claims_key claim in
  recent <- redis_smembers now recent_claims_key ;;
  match first_similar claim (elements recent) with
  | Some similarity =>
      ret {| is_duplicate := true; similarity := Some similarity |}
  | None =>
      (* Add to recent claims set *)
      redis_sadd now recent_claims_key (claim_json env claim) ;;;
      redis_expire now recent_claims_key 2592000 ;;;
      ret {| is_duplicate := false; similarity := None |}
  end.

(** [calculate_payout(claim, policy)] *)
Definition calculate_payout (claim : ClaimRequest) (policy : Policy)
    : float :=
  let coverage_limit :=
    Py.get (coverage_limits policy) (claim_type claim) 0%float in
  let deductible := deductible policy in
  let payout :=
    (Py.min (estimated_amount claim) coverage_limit - deductible)%float in
  Py.max payout 0.

(** The test of step 4 of [submit_claim]. *)
Definition instant_approval (claim : ClaimRequest)
    (fraud_score : FraudScore) : bool :=
  String.eqb (risk_level fraud_score) "low"
  && Py.lt (estimated_amount claim) 5000
  && Py.gt (confidence fraud_score) 0.85
  && existsb (String.eqb (claim_type claim)) ["theft"; "water_damage"].

(** [submit_claim(claim, background_tasks)] *)
Definition submit_claim (claim : ClaimRequest) : M ClaimResponse :=
  (* 1. Validate policy is active *)
  policy <- validate_policy (policy_id claim) (user_id claim) ;;
  match policy with
  | None => raise (HTTPException 400 "Invalid or inactive policy")
  | Some policy =>
    if negb (String.eqb (status policy) "active")
    then raise (HTTPException 400 "Invalid or inactive policy")
    else
      (* 2. Check for duplicate claims *)
      duplicate_check <- check_duplicate_claim claim ;;
      if is_duplicate duplicate_check
      then ret {| response_claim_id := claim_id claim;
                  response_status := "flagged";
                  payout_amount := None;
                  confidence_score := 0;
                  next_steps := "Claim flagged for manual review due to similarity to recent claim" |}
      else
        (* 3. Real-time fraud scoring *)
        log (FraudEvaluate claim) ;;;
        let fraud_score := fraud_detection_evaluate env claim in
        (* 4. Instant approval logic *)
        if instant_approval claim fraud_score
        then
          let payout_amount := calculate_payout claim policy in
          log (AddTask (process_instant_payout claim payout_amount)) ;;;
          log (KafkaSend "claims.instant_approved"
                 {| event_claim_id := claim_id claim;
                    event_amount := payout_amount;
                    event_fraud_score := score fraud_score |}) ;;;
          ret {| response_claim_id := claim_id claim;
                 response_status := "instant_approved";
                 payout_amount := Some payout_amount;
                 confidence_score := confidence fraud_score;
                 next_steps := "Funds transferred to your account (2-3 business days)" |}
        else
          (* 5. Route to human adjuster for complex claims *)
          log (AddTask (route_to_adjuster claim fraud_score)) ;;;
          ret {| response_claim_id := claim_id claim;
                 response_status := "under_review";
                 payout_amount := None;
                 confidence_score := confidence fraud_score;
                 next_steps := "A claims specialist will review your case within 24 hours" |}
  end.

(** *** [check_duplicate_claim], one Redis command at a time

    [check_duplicate_claim] talks to the store in up to three
    commands, [SMEMBERS], [SADD] and [EXPIRE], with no lock, transaction
    or script around them.  Service instances that share the store can
    therefore interleave at each command.  [Progress] is the place that
    one run of [check_duplicate_claim] has reached, [step] runs it up
    to and including its next command, and [run] follows a schedule of
    two submissions. *)
Inductive Progress : Type :=
| AtSmembers
| AtSadd
| AtExpire
| Returned (result : DuplicateCheck).

Definition step (claim : ClaimRequest) (at_ : Progress) : M Progress :=
  let recent_claims_key := recent_claims_key claim in
  match at_ with
  | AtSmembers =>
      recent <- redis_smembers now recent_claims_key ;;
      match first_similar claim (elements recent) with
      | Some similarity =>
          ret (Returned {| is_duplicate := true;
                           similarity := Some similarity |})
      | None => ret AtSadd
      end
  | AtSadd =>
      redis_sadd now recent_claims_key (claim_json env claim) ;;;
      ret AtExpire
  | AtExpire =>
      redis_expire now recent_claims_key 2592000 ;;;
      ret (Returned {| is_duplicate := false; similarity := None |})
  | Returned result => ret (Returned result)
  end.

Inductive Turn : Type := First | Second.

Fixpoint run (schedule : list Turn) (claim1 claim2 : ClaimRequest)
    (at1 at2 : Progress) : M (Progress * Progress) :=
  match schedule with
  | [] => ret (at1, at2)
  | First :: rest =>
      at1' <- step claim1 at1 ;; run rest claim1 claim2 at1' at2
  | Second :: rest =>
      at2' <- step claim2 at2 ;; run rest claim1 claim2 at1 at2'
  end.

End Service.

(** *** Reading the log *)

(** The actions dispatched so far: payout initiations and adjuster
    routings. *)
Definition is_action (c : Call) : bool :=
  match c with
  | AddTask _ => true
  | _ => false
  end.

Definition is_scoring (c : Call) : bool :=
  match c with
  | FraudEvaluate _ => true
  | _ => false
  end.


Definition actions (w : World) : list Call :=
  List.filter is_action (calls w).
Definition scorings (w : World) : list Call :=
  List.filter is_scoring (calls w).

(** The world that an outcome ends in, and its result if it returned. *)
Definition final {A} (o : Outcome A) : World :=
  match o with
  | Return _ w => w
  | Raise _ w => w
  end.

Definition returned {A} (o : Outcome A) : option A :=
  match o with
  | Return a _ => Some a
  | Raise _ _ => None
  end.

End Claims.

(** ** Sample data *)

Module Fixtures.

Import Ensemble.

(** A provider that answers [s], and one whose call raises. *)
Definition answering (s : float) : Model unit :=
  {| predict_proba := fun _ => Some s |}.

Definition failing : Model unit :=
  {| predict_proba := fun _ => None |}.

(** Stand-ins for the two scikit-learn estimators: the mean of the
    scores, and a detector that finds every vector an inlier. *)
Definition mean (xs : list float) : float :=
  let sum := fold_right PrimFloat.add 0%float xs in
  let n := fold_right (fun _ k => PrimFloat.add k 1) 0%float xs in
  PrimFloat.div sum n.

Definition level (risk : float) : string :=
  if Py.lt risk 0.3 then "low"
  else if Py.lt risk 0.7 then "medium" else "high".

Definition ensemble_of (models : Py.dict (Model unit))
    : FraudDetectionEnsemble unit unit unit :=
  {| models := models;
     meta_classifier := mean;
     anomaly_detector := fun _ => 1%Z;
     extract_features := fun _ _ => tt;
     score_to_level := level;
     calculate_confidence := fun _ => 0.9%float;
     get_review_reasons := fun _ => [] |}.

(** The registry of [__init__], every provider answering 0.1 except
    [video_analysis], which answers [video]. *)
Definition registry (video : Model unit) : Py.dict (Model unit) :=
  [("behavioral_biometrics", answering 0.1);
   ("device_fingerprint", answering 0.1);
   ("velocity_checks", answering 0.1);
   ("identity_graph", answering 0.1);
   ("claim_pattern", answering 0.1);
   ("network_analysis", answering 0.1);
   ("video_analysis", video);
   ("text_sentiment", answering 0.1)].

(** Scores that meet the approve criteria together with a risk score
    of 0.1, while the identity graph is above its reject threshold. *)
Definition conflicting_scores : Py.dict float :=
  [("behavioral_biometrics", 0.1%float);
   ("device_fingerprint", 0.1%float);
   ("identity_graph", 0.95%float);
   ("network_analysis", 0.2%float)].

(** Low secondary scores and nothing else. *)
Definition quiet_scores : Py.dict float :=
  [("behavioral_biometrics", 0.1%float);
   ("device_fingerprint", 0.1%float)].

Import Claims.

(** The claim of the example in [ClaimRequest.Config], with an
    identifier. *)
Definition pipe_burst : ClaimRequest :=
  {| claim_id := "clm_1";
     policy_id := "pol_123456789";
     user_id := "usr_987654321";
     claim_type := "water_damage";
     incident_date := 1705329000;
     description := "Pipe burst in kitchen causing floor damage";
     estimated_amount := 3500;
     video_evidence_url := Some "s3://lemonade-claims-videos/claim_123.mp4";
     photos := [];
     location := [("lat", 40.7128%float); ("lng", (-74.0060)%float)] |}.

(** A second request under the same claim identifier, reworded. *)
Definition pipe_burst_reworded : ClaimRequest :=
  {| claim_id := "clm_1";
     policy_id := "pol_123456789";
     user_id := "usr_987654321";
     claim_type := "water_damage";
     incident_date := 1705329000;
     description := "Burst pipe, kitchen floor ruined";
     estimated_amount := 3500;
     video_evidence_url := Some "s3://lemonade-claims-videos/claim_123.mp4";
     photos := [];
     location := [("lat", 40.7128%float); ("lng", (-74.0060)%float)] |}.

(** Another claim of the same claimant, with its own identifier and the
    description of [pipe_burst]. *)
Definition pipe_burst_again : ClaimRequest :=
  {| claim_id := "clm_2";
     policy_id := "pol_123456789";
     user_id := "usr_987654321";
     claim_type := "water_damage";
     incident_date := 1705329000;
     description := "Pipe burst in kitchen causing floor damage";
     estimated_amount := 3500;
     video_evidence_url := None;
     photos := [];
     location := [("lat", 40.7128%float); ("lng", (-74.0060)%float)] |}.

(** A small claim, below the deductible. *)
Definition stolen_umbrella : ClaimRequest :=
  {| claim_id := "clm_3";
     policy_id := "pol_123456789";
     user_id := "usr_987654321";
     claim_type := "theft";
     incident_date := 1705500000;
     description := "Umbrella stolen from porch";
     estimated_amount := 100;
     video_evidence_url := None;
     photos := [];
     location := [("lat", 40.7128%float); ("lng", (-74.0060)%float)] |}.

Definition sample_claims : list ClaimRequest :=
  [pipe_burst; pipe_burst_reworded; pipe_burst_again; stolen_umbrella].

Definition home_policy : Policy :=
  {| status := "active";
     coverage_limits := [("water_damage", 5000%float); ("theft", 5000%float)];
     deductible := 500 |}.

(** Stand-ins for the collaborators.  A claim is serialised to its
    identifier and description, which tells the sample claims apart, and
    read back by looking it up among them; the policy service knows one
    policy; the fraud service finds every claim low-risk; two claims are
    similar when their descriptions are equal. *)
Definition sample_json (claim : ClaimRequest) : string :=
  claim_id claim ++ "|" ++ description claim.

Definition sample_loads (s : string) : ClaimRequest :=
  match List.find (fun claim => String.eqb (sample_json claim) s)
          sample_claims with
  | Some claim => claim
  | None => pipe_burst
  end.

Definition fakes : Collaborators :=
  {| claim_json := sample_json;
     json_loads_claim := sample_loads;
     json_dumps_policy := fun _ => "{home_policy}";
     json_loads_policy := fun _ => Some home_policy;
     fetch_policy_from_service :=
       fun id => if String.eqb id "pol_123456789" then Some home_policy
                 else None;
     fraud_detection_evaluate :=
       fun _ => {| score := 0.05; risk_level := "low"; confidence := 0.95 |};
     calculate_similarity :=
       fun claim recent =>
         if String.eqb (description claim) (description recent)
         then 1%float else 0%float |}.

(** Two submissions whose commands alternate: both read the index before
    either of them writes to it. *)
Definition alternating : list Turn :=
  [First; Second; First; Second; First; Second].

(** The first submission runs to its end before the second one starts. *)
Definition one_after_the_other : list Turn :=
  [First; First; First; Second; Second; Second].

(** An empty store that stays reachable, and one that is unreachable. *)
Definition fresh : World :=
  {| store := ∅; reachable_for := None; calls := [] |}.

Definition unreachable : World :=
  {| store := ∅; reachable_for := Some 0; calls := [] |}.

(** A store that holds the policy in its cache and goes down after one
    more command. *)
Definition down_after_policy : World :=
  {| store := {[ "policy:pol_123456789" :=
                   {| value := RString "{home_policy}";
                      expires_at := Some 300%Z |} ]};
     reachable_for := Some 1;
     calls := [] |}.

End Fixtures.

(** * Properties of the Python dictionaries *)

Module PyFacts.

Lemma lookup_set_eq {V} (d : Py.dict V) k v :
  Py.lookup (Py.set d k v) k = Some v.
Proof.
  induction d as [|[k' v'] rest IH]; simpl.
  - now rewrite String.eqb_refl.
  - destruct (String.eqb k' k) eqn:E; simpl; rewrite E; auto.
Qed.

Lemma lookup_set_ne {V} (d : Py.dict V) k k' v :
  k <> k' -> Py.lookup (Py.set d k v) k' = Py.lookup d k'.
Proof.
  intros Hne. induction d as [|[k0 v0] rest IH]; simpl.
  - destruct (String.eqb_spec k k'); congruence.
  - destruct (String.eqb_spec k0 k) as [->|Hk]; simpl.
    + destruct (String.eqb_spec k k'); congruence.
    + destruct (String.eqb_spec k0 k'); auto.
Qed.

Lemma get_set_eq {V} (d : Py.dict V) k v dflt :
  Py.get (Py.set d k v) k dflt = v.
Proof. unfold Py.get. now rewrite lookup_set_eq. Qed.

Lemma get_set_ne {V} (d : Py.dict V) k k' v dflt :
  k <> k' -> Py.get (Py.set d k v) k' dflt = Py.get d k' dflt.
Proof. intros H. unfold Py.get. now rewrite lookup_set_ne. Qed.

Lemma get_absent {V} (d : Py.dict V) k dflt :
  Py.lookup d k = None -> Py.get d k dflt = dflt.
Proof. intros H. unfold Py.get. now rewrite H. Qed.

Lemma get_present {V} (d : Py.dict V) k v dflt :
  Py.lookup d k = Some v -> Py.get d k dflt = v.
Proof. intros H. unfold Py.get. now rewrite H. Qed.

(** Assigning a key that is not in the dictionary appends it. *)
Lemma set_absent {V} (d : Py.dict V) k v :
  Py.lookup d k = None -> Py.set d k v = (d ++ [(k, v)])%list.
Proof.
  induction d as [|[k' v'] rest IH]; simpl; intros H; [reflexivity|].
  destruct (String.eqb k' k); [discriminate|]. now rewrite IH.
Qed.

Lemma lookup_app {V} (d1 d2 : Py.dict V) k :
  Py.lookup (d1 ++ d2)%list k =
  match Py.lookup d1 k with
  | Some v => Some v
  | None => Py.lookup d2 k
  end.
Proof.
  induction d1 as [|[k' v'] rest IH]; simpl; [reflexivity|].
  now destruct (String.eqb k' k).
Qed.

Lemma lookup_None_keys {V} (d : Py.dict V) k :
  Py.lookup d k = None <-> k ∉ Py.keys d.
Proof.
  induction d as [|[k' v'] rest IH]; simpl.
  - split; [intros _ H; inversion H | reflexivity].
  - rewrite not_elem_of_cons.
    destruct (String.eqb_spec k' k) as [->|Hne].
    + split; [discriminate | tauto].
    + rewrite IH. split; [split; [congruence | assumption] | tauto].
Qed.

End PyFacts.

(** * Properties of the ensemble *)

Module EnsembleSpec.

Import Ensemble.

(** The approve criteria, on the scores that the vector holds. *)
Definition meets_approve (risk : float) (anomaly : bool)
    (scores : Py.dict float) : Prop :=
  Py.lt risk 0.15 = true /\ anomaly = false /\
  (exists bb, Py.lookup scores "behavioral_biometrics" = Some bb
              /\ Py.lt bb 0.2 = true) /\
  (exists df, Py.lookup scores "device_fingerprint" = Some df
              /\ Py.lt df 0.3 = true).

(** The reject criteria of the two hard-signal providers. *)
Definition meets_hard_reject (scores : Py.dict float) : Prop :=
  (exists ig, Py.lookup scores "identity_graph" = Some ig
              /\ Py.gt ig 0.9 = true) \/
  (exists na, Py.lookup scores "network_analysis" = Some na
              /\ Py.gt na 0.95 = true).

Lemma approve_first risk anomaly scores :
  meets_approve risk anomaly scores ->
  make_decision risk anomaly scores = "instant_approve".
Proof.
  intros (Hr & -> & (bb & Hbb & Hlt1) & (df & Hdf & Hlt2)).
  unfold make_decision.
  rewrite (PyFacts.get_present _ _ _ _ Hbb), (PyFacts.get_present _ _ _ _ Hdf).
  now rewrite Hr, Hlt1, Hlt2.
Qed.

(** C1 (as the code has it): a score vector that meets the approve
    criteria and a reject criterion at once is decided by the approve
    test, which comes first: the decision is ['instant_approve']. *)
Theorem conflict_resolves_to_instant_approve risk anomaly scores :
  meets_approve risk anomaly scores ->
  meets_hard_reject scores ->
  make_decision risk anomaly scores = "instant_approve".
Proof.
  intros (Hr & -> & (bb & Hbb & Hlt1) & (df & Hdf & Hlt2)) Hreject.
  unfold make_decision.
  (* the first test succeeds, whatever [Hreject] says about the second *)
  rewrite (PyFacts.get_present _ _ _ _ Hbb), Hlt1.
  rewrite (PyFacts.get_present _ _ _ _ Hdf), Hlt2.
  rewrite Hr. reflexivity.
Qed.

Lemma conflict_resolves_to_instant_approve_witness :
  meets_approve 0.1 false Fixtures.conflicting_scores /\
  meets_hard_reject Fixtures.conflicting_scores /\
  make_decision 0.1 false Fixtures.conflicting_scores = "instant_approve".
Proof.
  assert (Ha : meets_approve 0.1 false Fixtures.conflicting_scores).
  { repeat split; try reflexivity;
      eexists; (split; [reflexivity | reflexivity]). }
  assert (Hr : meets_hard_reject Fixtures.conflicting_scores).
  { left. eexists. split; reflexivity. }
  exact (conj Ha (conj Hr
           (conflict_resolves_to_instant_approve _ _ _ Ha Hr))).
Defined.

(** C1, counterexample: risk score 0.1, no anomaly, biometrics 0.1,
    device 0.1 and identity graph 0.95 meet both sets of criteria, and
    the decision is not ['review']. *)
Lemma conflict_is_not_review :
  meets_approve 0.1 false Fixtures.conflicting_scores /\
  meets_hard_reject Fixtures.conflicting_scores /\
  make_decision 0.1 false Fixtures.conflicting_scores <> "review".
Proof.
  split; [|split].
  - repeat split; try reflexivity; eexists; (split; reflexivity).
  - left. eexists. split; reflexivity.
  - vm_compute. discriminate.
Qed.

(** C6: with no anomaly and the biometrics and device scores below
    their secondary thresholds, a risk score of exactly 0.15 is not
    instantly approved, and every risk score strictly below 0.15 is. *)
Theorem approve_threshold_is_strict scores bb df :
  Py.lookup scores "behavioral_biometrics" = Some bb ->
  Py.lt bb 0.2 = true ->
  Py.lookup scores "device_fingerprint" = Some df ->
  Py.lt df 0.3 = true ->
  make_decision 0.15 false scores <> "instant_approve" /\
  (forall risk, Py.lt risk 0.15 = true ->
                make_decision risk false scores = "instant_approve").
Proof.
  intros Hbb Hlt1 Hdf Hlt2. split.
  - unfold make_decision.
    replace (Py.lt 0.15 0.15) with false by reflexivity. simpl.
    repeat match goal with |- context [if ?b then _ else _] => destruct b end;
      discriminate.
  - intros risk Hr. apply approve_first.
    repeat split; eauto.
Qed.

Lemma approve_threshold_is_strict_witness :
  make_decision 0.15 false Fixtures.quiet_scores <> "instant_approve" /\
  make_decision 0.1499 false Fixtures.quiet_scores = "instant_approve".
Proof.
  destruct (approve_threshold_is_strict Fixtures.quiet_scores 0.1 0.1
              eq_refl eq_refl eq_refl eq_refl) as [Hat Hbelow].
  split; [exact Hat | exact (Hbelow 0.1499%float eq_refl)].
Defined.

(** C10: a score missing from the vector is defaulted asymmetrically.
    A missing biometrics or device score counts as 1 and rules out
    ['instant_approve']; a missing identity-graph or network-analysis
    score counts as 0, and with both missing only a risk score above
    0.85 gives ['reject']. *)
Theorem missing_scores_default_asymmetrically risk anomaly scores :
  (Py.lookup scores "behavioral_biometrics" = None ->
     make_decision risk anomaly scores =
       make_decision risk anomaly (Py.set scores "behavioral_biometrics" 1%float)
     /\ make_decision risk anomaly scores <> "instant_approve") /\
  (Py.lookup scores "device_fingerprint" = None ->
     make_decision risk anomaly scores =
       make_decision risk anomaly (Py.set scores "device_fingerprint" 1%float)
     /\ make_decision risk anomaly scores <> "instant_approve") /\
  (Py.lookup scores "identity_graph" = None ->
     make_decision risk anomaly scores =
       make_decision risk anomaly (Py.set scores "identity_graph" 0%float)) /\
  (Py.lookup scores "network_analysis" = None ->
     make_decision risk anomaly scores =
       make_decision risk anomaly (Py.set scores "network_analysis" 0%float)) /\
  (Py.lookup scores "identity_graph" = None ->
   Py.lookup scores "network_analysis" = None ->
   make_decision risk anomaly scores = "reject" ->
   Py.gt risk 0.85 = true).
Proof.
  assert (Hone2 : Py.lt 1 0.2 = false) by reflexivity.
  assert (Hone3 : Py.lt 1 0.3 = false) by reflexivity.
  assert (Hzero9 : Py.gt 0 0.9 = false) by reflexivity.
  assert (Hzero95 : Py.gt 0 0.95 = false) by reflexivity.
  assert (Hset : forall k v, Py.lookup scores k = None ->
            (k = "behavioral_biometrics" /\ v = 1%float) \/
            (k = "device_fingerprint" /\ v = 1%float) \/
            (k = "identity_graph" /\ v = 0%float) \/
            (k = "network_analysis" /\ v = 0%float) ->
            make_decision risk anomaly scores =
            make_decision risk anomaly (Py.set scores k v)).
  { intros k v H Hk. unfold make_decision.
    destruct Hk as [[-> ->]|[[-> ->]|[[-> ->]|[-> ->]]]];
      rewrite PyFacts.get_set_eq, !PyFacts.get_set_ne by discriminate;
      now rewrite (PyFacts.get_absent _ _ _ H). }
  split; [|split; [|split; [|split]]].
  - intros H. split; [apply Hset; auto|].
    unfold make_decision.
    rewrite (PyFacts.get_absent _ _ _ H), Hone2.
    rewrite !andb_false_r; simpl.
    repeat match goal with |- context [if ?b then _ else _] => destruct b end;
      discriminate.
  - intros H. split; [apply Hset; auto|].
    unfold make_decision.
    rewrite (PyFacts.get_absent _ _ _ H), Hone3.
    rewrite !andb_false_r; simpl.
    repeat match goal with |- context [if ?b then _ else _] => destruct b end;
      discriminate.
  - intros H. apply Hset; auto.
  - intros H. apply Hset; auto 6.
  - intros Hig Hna. unfold make_decision.
    rewrite (PyFacts.get_absent _ _ _ Hig), (PyFacts.get_absent _ _ _ Hna).
    rewrite Hzero9, Hzero95, !orb_false_r.
    destruct (Py.gt risk 0.85); [reflexivity|].
    destruct (_ && _); discriminate.
Qed.

Lemma missing_scores_default_asymmetrically_witness :
  make_decision 0.1 false [] <> "instant_approve" /\
  (make_decision 0.5 false [] = "reject" -> Py.gt 0.5 0.85 = true).
Proof.
  destruct (missing_scores_default_asymmetrically 0.1 false [])
    as (Hbb & _).
  destruct (missing_scores_default_asymmetrically 0.5 false [])
    as (_ & _ & _ & _ & Hrej).
  split; [exact (proj2 (Hbb eq_refl)) | exact (Hrej eq_refl eq_refl)].
Defined.

(** *** The loop over the providers *)

Section Evaluate.

Context {ClaimData UserHistory Features : Type}.

Implicit Types (items : list (string * Model Features))
               (features : Features).

(** The score vector that the loop builds when no provider fails
    the whole evaluation: one entry per provider, in order. *)
Definition scored items features : Py.dict float :=
  map (fun item => (fst item, score_or_neutral (snd item) features)) items.

Lemma keys_scored items features :
  Py.keys (scored items features) = Py.keys items.
Proof.
  unfold scored, Py.keys. rewrite map_map. reflexivity.
Qed.

Lemma collect_scores_app items features : forall acc,
  NoDup (Py.keys items) ->
  (forall name, name ∈ Py.keys items -> Py.lookup acc name = None) ->
  collect_scores items features acc = (acc ++ scored items features)%list.
Proof.
  induction items as [|[name model] rest IH]; intros acc Hnd Hfresh.
  - simpl. now rewrite app_nil_r.
  - simpl in *. inversion Hnd as [|? ? Hnotin Hnd']; subst.
    rewrite PyFacts.set_absent by (apply Hfresh; left).
    rewrite IH; [now rewrite <- app_assoc | assumption |].
    intros n Hn. rewrite PyFacts.lookup_app, (Hfresh n) by (now right).
    simpl. destruct (String.eqb_spec name n) as [->|]; [|reflexivity].
    contradiction.
Qed.

Lemma lookup_scored items features name model :
  Py.lookup items name = Some model ->
  Py.lookup (scored items features) name
  = Some (score_or_neutral model features).
Proof.
  induction items as [|[n m] rest IH]; simpl; [discriminate|].
  destruct (String.eqb n name); [now intros [= ->] | exact IH].
Qed.

(** C7 (as the code has it): a provider whose call raises contributes
    the plain score 0.5 to the score vector, and the evaluation still
    completes: the vector has one entry for every registered provider,
    in order, and the decision is taken on it. *)
Theorem failed_provider_scores_neutral
    (self : FraudDetectionEnsemble ClaimData UserHistory Features)
    (claim_data : ClaimData) (user_history : UserHistory) :
  NoDup (Py.keys (models self)) ->
  let features := extract_features self claim_data user_history in
  let result := evaluate self claim_data user_history in
  Py.keys (model_breakdown result) = Py.keys (models self) /\
  (forall name model,
     Py.lookup (models self) name = Some model ->
     match predict_proba model features with
     | Some score => Py.lookup (model_breakdown result) name = Some score
     | None => Py.lookup (model_breakdown result) name = Some 0.5%float
     end) /\
  decision result =
    make_decision (meta_classifier self (Py.values (model_breakdown result)))
      (Z.eqb (anomaly_detector self (Py.values (model_breakdown result))) (-1))
      (model_breakdown result).
Proof.
  intros Hnd features result.
  assert (Hb : model_breakdown result = scored (models self) features).
  { unfold result, evaluate; simpl.
    now rewrite collect_scores_app by auto. }
  split; [|split].
  - rewrite Hb. apply keys_scored.
  - intros name model Hl. rewrite Hb.
    rewrite (lookup_scored _ _ _ _ Hl). unfold score_or_neutral.
    now destruct (predict_proba model features).
  - reflexivity.
Qed.

End Evaluate.

Lemma registry_keys video :
  Py.keys (Fixtures.registry video) =
  ["behavioral_biometrics"; "device_fingerprint"; "velocity_checks";
   "identity_graph"; "claim_pattern"; "network_analysis";
   "video_analysis"; "text_sentiment"].
Proof. reflexivity. Qed.

Lemma registry_NoDup video : NoDup (Py.keys (Fixtures.registry video)).
Proof.
  rewrite registry_keys. compute_done.
Qed.

Lemma failed_provider_scores_neutral_witness :
  Py.lookup
    (model_breakdown
       (evaluate (Fixtures.ensemble_of (Fixtures.registry Fixtures.failing))
          tt tt))
    "video_analysis" = Some 0.5%float.
Proof.
  destruct (failed_provider_scores_neutral
              (Fixtures.ensemble_of (Fixtures.registry Fixtures.failing))
              tt tt (registry_NoDup _)) as (_ & Hscore & _).
  exact (Hscore "video_analysis" Fixtures.failing eq_refl).
Defined.

(** C7, counterexample: the evaluation in which [video_analysis] raises
    is the evaluation in which it answers 0.5, entry for entry: the score
    vector carries a bare 0.5 and nothing that marks the provider as
    unavailable. *)
Lemma unavailable_is_not_tagged :
  predict_proba Fixtures.failing tt = None /\
  predict_proba (Fixtures.answering 0.5) tt = Some 0.5%float /\
  evaluate (Fixtures.ensemble_of (Fixtures.registry Fixtures.failing)) tt tt
  = evaluate
      (Fixtures.ensemble_of (Fixtures.registry (Fixtures.answering 0.5)))
      tt tt.
Proof. repeat split. Qed.

End EnsembleSpec.


(** * Properties of the claims service *)

Module ClaimsSpec.

Import Claims.

(** The sample claims pass the validation of [ClaimRequest]. *)
Example sample_claims_valid :
  forallb valid_claim Fixtures.sample_claims = true.
Proof. reflexivity. Qed.

(** ** The monad *)

Lemma bind_Return {A B} (m : M A) (k : A -> M B) w b w' :
  bind m k w = Return b w' ->
  exists a w1, m w = Return a w1 /\ k a w1 = Return b w'.
Proof.
  unfold bind. destruct (m w) as [a w1|e w1]; [eauto | discriminate].
Qed.

Lemma bind_Raise {A B} (m : M A) (k : A -> M B) w e w' :
  bind m k w = Raise e w' ->
  m w = Raise e w' \/ exists a w1, m w = Return a w1 /\ k a w1 = Raise e w'.
Proof.
  unfold bind. destruct (m w) as [a w1|e1 w1]; [eauto | intros [= -> ->]; auto].
Qed.

Lemma bind_eq_Return {A B} (m : M A) (k : A -> M B) w a w1 :
  m w = Return a w1 -> bind m k w = k a w1.
Proof. unfold bind. now intros ->. Qed.

Lemma bind_eq_Raise {A B} (m : M A) (k : A -> M B) w e w1 :
  m w = Raise e w1 -> bind m k w = Raise e w1.
Proof. unfold bind. now intros ->. Qed.

(** [w] with the calls [l] appended to its log. *)
Definition logged (w : World) (l : list Call) : World :=
  {| store := store w;
     reachable_for := reachable_for w;
     calls := calls w ++ l |}.

Lemma logged_logged w l1 l2 :
  logged (logged w l1) l2 = logged w (l1 ++ l2).
Proof. unfold logged; simpl. now rewrite <- app_assoc. Qed.

Lemma log_logged c w : log c w = Return tt (logged w [c]).
Proof. reflexivity. Qed.

(** ** Computations that only talk to Redis

    [silent m]: whatever [m] does, it adds nothing but Redis commands to
    the log. *)
Definition is_redis (c : Call) : bool :=
  match c with
  | Redis _ => true
  | _ => false
  end.

Definition silent {A} (m : M A) : Prop :=
  forall w, exists l, calls (final (m w)) = (calls w ++ l)%list
                      /\ forallb is_redis l = true.

Lemma silent_ret {A} (a : A) : silent (ret a).
Proof. intros w. exists []. simpl. now rewrite app_nil_r. Qed.

Lemma silent_raise {A} e : silent (@raise A e).
Proof. intros w. exists []. simpl. now rewrite app_nil_r. Qed.

Lemma silent_bind {A B} (m : M A) (k : A -> M B) :
  silent m -> (forall a, silent (k a)) -> silent (bind m k).
Proof.
  intros Hm Hk w. destruct (Hm w) as (l1 & E1 & F1). unfold bind.
  destruct (m w) as [a w1|e w1]; simpl in *.
  - destruct (Hk a w1) as (l2 & E2 & F2). exists (l1 ++ l2)%list.
    rewrite E2, E1, <- app_assoc, forallb_app, F1, F2. auto.
  - exists l1. auto.
Qed.

Lemma silent_round_trip cmd : silent (round_trip cmd).
Proof.
  intros w. unfold round_trip.
  destruct (reachable_for w) as [[|n]|]; simpl.
  - exists []. now rewrite app_nil_r.
  - exists [Redis cmd]. auto.
  - exists [Redis cmd]. auto.
Qed.

Lemma silent_get_store : silent get_store.
Proof. intros w. exists []. simpl. now rewrite app_nil_r. Qed.

Lemma silent_put_store s : silent (put_store s).
Proof. intros w. exists []. simpl. now rewrite app_nil_r. Qed.

Create HintDb silent.

#[local] Hint Resolve silent_ret silent_raise silent_round_trip
  silent_get_store silent_put_store : silent.

Ltac silent :=
  repeat first
    [ apply silent_bind; [|intros ?]
    | solve [auto with silent]
    | match goal with
      | |- silent (match ?x with _ => _ end) => destruct x
      | |- silent (if ?x then _ else _) => destruct x
      end ].

Lemma silent_redis_get now key : silent (redis_get now key).
Proof. unfold redis_get. silent. Qed.

Lemma silent_redis_setex now key ttl v : silent (redis_setex now key ttl v).
Proof. unfold redis_setex. silent. Qed.

Lemma silent_redis_smembers now key : silent (redis_smembers now key).
Proof. unfold redis_smembers. silent. Qed.

Lemma silent_redis_sadd now key member : silent (redis_sadd now key member).
Proof. unfold redis_sadd. silent. Qed.

Lemma silent_redis_expire now key ttl : silent (redis_expire now key ttl).
Proof. unfold redis_expire. silent. Qed.

#[local] Hint Resolve silent_redis_get silent_redis_setex
  silent_redis_smembers silent_redis_sadd silent_redis_expire : silent.

Lemma silent_validate_policy env now policy_id user_id :
  silent (validate_policy env now policy_id user_id).
Proof. unfold validate_policy. silent. Qed.

Lemma silent_check_duplicate_claim env now claim :
  silent (check_duplicate_claim env now claim).
Proof. unfold check_duplicate_claim. silent. Qed.

(** A silent computation leaves the scorings and the actions of the log
    as they were. *)
Lemma filter_redis_nil (p : Call -> bool) l :
  (forall cmd, p (Redis cmd) = false) ->
  forallb is_redis l = true -> List.filter p l = [].
Proof.
  intros Hp. induction l as [|c l IH]; simpl; [reflexivity|].
  destruct c; simpl; try discriminate. rewrite Hp. exact IH.
Qed.

Lemma silent_frame {A} (m : M A) w :
  silent m ->
  scorings (final (m w)) = scorings w /\ actions (final (m w)) = actions w.
Proof.
  intros Hm. destruct (Hm w) as (l & E & F). unfold scorings, actions.
  rewrite E, !List.filter_app, !(filter_redis_nil _ l), !app_nil_r; auto.
Qed.

(** ** The shape of a submission that returns *)

Definition flagged_response (claim : ClaimRequest) : ClaimResponse :=
  {| response_claim_id := claim_id claim;
     response_status := "flagged";
     payout_amount := None;
     confidence_score := 0;
     next_steps := "Claim flagged for manual review due to similarity to recent claim" |}.

Definition approved_response (claim : ClaimRequest) (amount : float)
    (fraud_score : FraudScore) : ClaimResponse :=
  {| response_claim_id := claim_id claim;
     response_status := "instant_approved";
     payout_amount := Some amount;
     confidence_score := confidence fraud_score;
     next_steps := "Funds transferred to your account (2-3 business days)" |}.

Definition review_response (claim : ClaimRequest) (fraud_score : FraudScore)
    : ClaimResponse :=
  {| response_claim_id := claim_id claim;
     response_status := "under_review";
     payout_amount := None;
     confidence_score := confidence fraud_score;
     next_steps := "A claims specialist will review your case within 24 hours" |}.

(** The calls of steps 3 to 5 of [submit_claim]. *)
Definition dispatch_calls (env : Collaborators) (claim : ClaimRequest)
    (policy : Policy) : list Call :=
  let fraud_score := fraud_detection_evaluate env claim in
  if instant_approval claim fraud_score
  then [FraudEvaluate claim;
        AddTask (process_instant_payout claim (calculate_payout claim policy));
        KafkaSend "claims.instant_approved"
          {| event_claim_id := claim_id claim;
             event_amount := calculate_payout claim policy;
             event_fraud_score := score fraud_score |}]
  else [FraudEvaluate claim; AddTask (route_to_adjuster claim fraud_score)].

Definition dispatch_response (env : Collaborators) (claim : ClaimRequest)
    (policy : Policy) : ClaimResponse :=
  let fraud_score := fraud_detection_evaluate env claim in
  if instant_approval claim fraud_score
  then approved_response claim (calculate_payout claim policy) fraud_score
  else review_response claim fraud_score.

(** [submit_claim] once the policy is known to be active and the
    duplicate check has returned. *)
Lemma submit_claim_after_check env now claim w policy w1 dup w2 :
  validate_policy env now (policy_id claim) (user_id claim) w
    = Return (Some policy) w1 ->
  status policy = "active" ->
  check_duplicate_claim env now claim w1 = Return dup w2 ->
  submit_claim env now claim w =
    if is_duplicate dup then Return (flagged_response claim) w2
    else Return (dispatch_response env claim policy)
                (logged w2 (dispatch_calls env claim policy)).
Proof.
  intros Hv Hs Hc. unfold submit_claim.
  rewrite (bind_eq_Return _ _ _ _ _ Hv), Hs, String.eqb_refl. cbn [negb].
  rewrite (bind_eq_Return _ _ _ _ _ Hc).
  destruct (is_duplicate dup); [reflexivity|].
  unfold dispatch_response, dispatch_calls.
  rewrite (bind_eq_Return _ _ _ _ _ (log_logged _ _)).
  destruct (instant_approval _ _).
  - rewrite (bind_eq_Return _ _ _ _ _ (log_logged _ _)).
    rewrite (bind_eq_Return _ _ _ _ _ (log_logged _ _)).
    unfold ret. now rewrite !logged_logged.
  - rewrite (bind_eq_Return _ _ _ _ _ (log_logged _ _)).
    unfold ret. now rewrite !logged_logged.
Qed.

(** A submission that returns has an active policy and a duplicate check
    that returned. *)
Lemma submit_claim_Return env now claim w r w' :
  submit_claim env now claim w = Return r w' ->
  exists policy w1 dup w2,
    validate_policy env now (policy_id claim) (user_id claim) w
      = Return (Some policy) w1 /\
    status policy = "active" /\
    check_duplicate_claim env now claim w1 = Return dup w2 /\
    if is_duplicate dup then r = flagged_response claim /\ w' = w2
    else r = dispatch_response env claim policy /\
         w' = logged w2 (dispatch_calls env claim policy).
Proof.
  intros H. pose proof H as H0. unfold submit_claim in H.
  apply bind_Return in H as ([policy|] & w1 & Hv & H); [|discriminate].
  destruct (String.eqb_spec (status policy) "active") as [Hs|Hs];
    simpl in H; [|discriminate].
  apply bind_Return in H as (dup & w2 & Hc & _).
  exists policy, w1, dup, w2. repeat split; auto.
  rewrite (submit_claim_after_check _ _ _ _ _ _ _ _ Hv Hs Hc) in H0.
  destruct (is_duplicate dup); injection H0 as <- <-; auto.
Qed.

(** ** Payout *)

Lemma payout_not_negative payout : Py.lt (Py.max payout 0) 0 = false.
Proof.
  unfold Py.max, Py.gt, Py.lt.
  destruct (PrimFloat.ltb payout 0) eqn:E; [reflexivity | exact E].
Qed.

(** C5: an instantly approved claim with estimated amount [a], coverage
    limit [c] for its claim type (0 when the policy has none) and
    deductible [d] is answered, and its payout task queued, with the
    amount [max(min(a, c) - d, 0)], which is never below zero;
    3500, 5000 and 500 give 3000, and 100 with a deductible of 500 gives 0
    (for a limit that is not below the amount). *)
Theorem instant_payout_amount env now claim w r w' :
  submit_claim env now claim w = Return r w' ->
  response_status r = "instant_approved" ->
  exists policy w1,
    validate_policy env now (policy_id claim) (user_id claim) w
      = Return (Some policy) w1 /\
    let a := estimated_amount claim in
    let c := Py.get (coverage_limits policy) (claim_type claim) 0%float in
    let d := deductible policy in
    let payout := Py.max (Py.min a c - d) 0 in
    payout_amount r = Some payout /\
    AddTask (process_instant_payout claim payout) ∈ calls w' /\
    Py.lt payout 0 = false /\
    (a = 3500%float -> c = 5000%float -> d = 500%float ->
     payout = 3000%float) /\
    (a = 100%float -> Py.lt c a = false -> d = 500%float ->
     payout = 0%float).
Proof.
  intros H Hs.
  apply submit_claim_Return in H as (policy & w1 & dup & w2 & Hv & _ & _ & H).
  exists policy, w1. split; [exact Hv|].
  destruct (is_duplicate dup).
  { destruct H as [-> _]. discriminate. }
  destruct H as [-> ->]. unfold dispatch_response, dispatch_calls in *.
  destruct (instant_approval _ _); [|discriminate].
  cbv zeta. fold (calculate_payout claim policy).
  split; [reflexivity|]. split.
  { simpl. apply elem_of_app. right. right. left. }
  split; [apply payout_not_negative|].
  unfold calculate_payout. split.
  - intros -> -> ->. reflexivity.
  - intros Ha Hc ->. unfold Py.min. rewrite Hc, Ha. reflexivity.
Qed.

Lemma instant_payout_amount_witness :
  exists r w',
    submit_claim Fixtures.fakes 0 Fixtures.pipe_burst Fixtures.fresh
      = Return r w' /\
    response_status r = "instant_approved" /\
    payout_amount r = Some 3000%float.
Proof.
  assert (E : exists r w',
             submit_claim Fixtures.fakes 0 Fixtures.pipe_burst Fixtures.fresh
               = Return r w' /\
             response_status r = "instant_approved")
    by (do 2 eexists; split; vm_compute; reflexivity).
  destruct E as (r & w' & E & Hs).
  exists r, w'. split; [exact E|]. split; [exact Hs|].
  destruct (instant_payout_amount _ _ _ _ _ _ E Hs)
    as (policy & w1 & Hv & Hp & _).
  vm_compute in Hv. injection Hv as <- <-.
  rewrite Hp. vm_compute. reflexivity.
Defined.

(** ** Submissions and dispatched actions *)

Lemma scorings_logged w l :
  scorings (logged w l) = (scorings w ++ List.filter is_scoring l)%list.
Proof. unfold scorings; simpl. apply List.filter_app. Qed.

Lemma actions_logged w l :
  actions (logged w l) = (actions w ++ List.filter is_action l)%list.
Proof. unfold actions; simpl. apply List.filter_app. Qed.

(** One submission: flagged without scoring or action, or scored once
    with one action dispatched. *)
Lemma one_action_per_submission env now claim w r w' :
  submit_claim env now claim w = Return r w' ->
  (r = flagged_response claim /\
   scorings w' = scorings w /\ actions w' = actions w) \/
  (exists task,
     (response_status r = "instant_approved"
      \/ response_status r = "under_review") /\
     scorings w' = (scorings w ++ [FraudEvaluate claim])%list /\
     actions w' = (actions w ++ [AddTask task])%list).
Proof.
  intros H.
  apply submit_claim_Return in H as (policy & w1 & dup & w2 & Hv & _ & Hc & H).
  destruct (silent_frame _ w (silent_validate_policy env now
              (policy_id claim) (user_id claim))) as [Hs1 Ha1].
  destruct (silent_frame _ w1 (silent_check_duplicate_claim env now claim))
    as [Hs2 Ha2].
  rewrite Hv in Hs1, Ha1. rewrite Hc in Hs2, Ha2. simpl in *.
  destruct (is_duplicate dup).
  - destruct H as [-> ->]. left. repeat split; congruence.
  - destruct H as [-> ->]. right.
    rewrite scorings_logged, actions_logged, Hs2, Ha2, Hs1, Ha1.
    unfold dispatch_response, dispatch_calls.
    destruct (instant_approval _ _); simpl; eauto 6.
Qed.




(** ** An unreachable store *)

Lemma round_trip_down cmd w :
  reachable_for w = Some 0 -> round_trip cmd w = Raise ConnectionError w.
Proof. unfold round_trip. now intros ->. Qed.

Lemma check_duplicate_claim_down env now claim w :
  reachable_for w = Some 0 ->
  check_duplicate_claim env now claim w = Raise ConnectionError w.
Proof.
  intros H. unfold check_duplicate_claim, redis_smembers.
  apply bind_eq_Raise, bind_eq_Raise, round_trip_down, H.
Qed.

Lemma validate_policy_down env now policy_id user_id w :
  reachable_for w = Some 0 ->
  validate_policy env now policy_id user_id w = Raise ConnectionError w.
Proof.
  intros H. unfold validate_policy, redis_get.
  apply bind_eq_Raise, bind_eq_Raise, round_trip_down, H.
Qed.

(** C3 (as the code has it): when the store is unreachable, the duplicate
    check raises [ConnectionError] and [submit_claim] does not handle it:
    the submission ends with that exception, whether the store is down
    from the start or goes down once the policy has been validated.
    Nothing is scored, dispatched or routed to review. *)
Theorem unreachable_index_raises env now claim w :
  (reachable_for w = Some 0 ->
   check_duplicate_claim env now claim w = Raise ConnectionError w /\
   submit_claim env now claim w = Raise ConnectionError w) /\
  (forall policy w1,
     validate_policy env now (policy_id claim) (user_id claim) w
       = Return (Some policy) w1 ->
     status policy = "active" ->
     reachable_for w1 = Some 0 ->
     check_duplicate_claim env now claim w1 = Raise ConnectionError w1 /\
     submit_claim env now claim w = Raise ConnectionError w1 /\
     scorings w1 = scorings w /\ actions w1 = actions w).
Proof.
  split.
  - intros H. split; [now apply check_duplicate_claim_down|].
    unfold submit_claim. now apply bind_eq_Raise, validate_policy_down.
  - intros policy w1 Hv Hs Hdown.
    pose proof (check_duplicate_claim_down env now claim w1 Hdown) as Hc.
    split; [exact Hc|]. split.
    + unfold submit_claim.
      rewrite (bind_eq_Return _ _ _ _ _ Hv), Hs, String.eqb_refl. cbn [negb].
      now apply bind_eq_Raise.
    + pose proof (silent_frame _ w (silent_validate_policy env now
                    (policy_id claim) (user_id claim))) as Hf.
      now rewrite Hv in Hf.
Qed.

Lemma unreachable_index_raises_witness :
  submit_claim Fixtures.fakes 0 Fixtures.pipe_burst Fixtures.unreachable
    = Raise ConnectionError Fixtures.unreachable /\
  exists w1,
    submit_claim Fixtures.fakes 0 Fixtures.pipe_burst
      Fixtures.down_after_policy = Raise ConnectionError w1 /\
    calls w1 = [Redis (GET "policy:pol_123456789")].
Proof.
  destruct (unreachable_index_raises Fixtures.fakes 0 Fixtures.pipe_burst
              Fixtures.unreachable) as [Hdown _].
  destruct (unreachable_index_raises Fixtures.fakes 0 Fixtures.pipe_burst
              Fixtures.down_after_policy) as [_ Hlater].
  split; [exact (proj2 (Hdown eq_refl))|].
  assert (E : exists w1,
             validate_policy Fixtures.fakes 0 "pol_123456789" "usr_987654321"
               Fixtures.down_after_policy
               = Return (Some Fixtures.home_policy) w1 /\
             reachable_for w1 = Some 0 /\
             calls w1 = [Redis (GET "policy:pol_123456789")])
    by (eexists; repeat split; vm_compute; reflexivity).
  destruct E as (w1 & Hv & Hd & Hcalls).
  exists w1. split; [|exact Hcalls].
  exact (proj1 (proj2 (Hlater _ _ Hv eq_refl Hd))).
Defined.

(** C3, counterexample: the policy is in the cache and the store goes
    down before the duplicate check.  The submission ends with
    [ConnectionError]: no response is returned, in particular none with
    status ['under_review'], and no adjuster routing is queued. *)
Lemma unreachable_index_is_an_error :
  let outcome :=
    submit_claim Fixtures.fakes 0 Fixtures.pipe_burst
      Fixtures.down_after_policy in
  returned outcome = None /\
  (exists w', outcome = Raise ConnectionError w') /\
  actions (final outcome) = [].
Proof. vm_compute. repeat split. eexists. reflexivity. Qed.

(** ** The duplicate check *)

(** The members of the claim index of a key at time [now]: those of the
    set stored there if the key has not expired, none if there is no such
    key.  A key that holds a string has no members to speak of. *)
Definition index_members (now : Z) (key : string)
    (s : gmap string RedisEntry) : option (gset string) :=
  match find now key s with
  | None => Some ∅
  | Some e =>
      match value e with
      | RSet members => Some members
      | RString _ => None
      end
  end.

(** The test of the loop of [check_duplicate_claim] on one member. *)
Definition similar (env : Collaborators) (claim : ClaimRequest)
    (member : string) : bool :=
  Py.gt (calculate_similarity env claim (json_loads_claim env member)) 0.85.

Lemma first_similar_None env claim recent :
  first_similar env claim recent = None <->
  forall m, m ∈ recent -> similar env claim m = false.
Proof.
  induction recent as [|m0 rest IH]; simpl.
  - split; [intros _ m H; inversion H | reflexivity].
  - fold (similar env claim m0). destruct (similar env claim m0) eqn:E.
    + split; [discriminate|]. intros H.
      specialize (H m0 (list_elem_of_here _ _)). congruence.
    + rewrite IH. split.
      * intros H m Hm. apply elem_of_cons in Hm as [->|Hm]; auto.
      * intros H m Hm. apply H. now right.
Qed.

Lemma first_similar_Some env claim recent s :
  first_similar env claim recent = Some s ->
  Py.gt s 0.85 = true /\
  exists m, m ∈ recent /\
            s = calculate_similarity env claim (json_loads_claim env m).
Proof.
  induction recent as [|m0 rest IH]; simpl; [discriminate|].
  destruct (Py.gt (calculate_similarity env claim (json_loads_claim env m0))
              0.85) eqn:E.
  - intros [= <-]. split; [exact E|]. exists m0. split; [left | reflexivity].
  - intros H. destruct (IH H) as (Hs & m & Hm & ->).
    split; [exact Hs|]. exists m. split; [now right | reflexivity].
Qed.

(** The commands on a store that stays up. *)
Lemma round_trip_up cmd w :
  reachable_for w = None ->
  round_trip cmd w = Return tt (logged w [Redis cmd]).
Proof. unfold round_trip, logged. now intros ->. Qed.

Lemma redis_smembers_up now key w members :
  reachable_for w = None ->
  index_members now key (store w) = Some members ->
  redis_smembers now key w = Return members (logged w [Redis (SMEMBERS key)]).
Proof.
  intros Hup Hm. unfold redis_smembers, index_members in *.
  rewrite (bind_eq_Return _ _ _ _ _ (round_trip_up _ _ Hup)).
  unfold bind, get_store; simpl.
  destruct (find now key (store w)) as [e|].
  - destruct (value e); [discriminate|]. now injection Hm as ->.
  - now injection Hm as <-.
Qed.

Lemma find_Some now key s e :
  find now key s = Some e -> s !! key = Some e /\ live now e = true.
Proof.
  unfold find. destruct (s !! key) as [e'|]; [|discriminate].
  destruct (live now e') eqn:E; [|discriminate]. now intros [= ->].
Qed.

Lemma find_insert now key e s :
  find now key (<[key := e]> s) = if live now e then Some e else None.
Proof. unfold find. now rewrite lookup_insert_eq. Qed.

(** Registering a member: [SADD] followed by [EXPIRE]. *)
Lemma register_up now key member ttl w members l :
  reachable_for w = None ->
  index_members now key (store w) = Some members ->
  (0 < ttl)%Z ->
  (redis_sadd now key member ;;; redis_expire now key ttl) (logged w l)
  = Return tt
      {| store := <[key := {| value := RSet ({[member]} ∪ members);
                              expires_at := Some (now + ttl)%Z |}]> (store w);
         reachable_for := None;
         calls := calls w ++ l ++ [Redis (SADD key member);
                                   Redis (EXPIRE key ttl)] |}.
Proof.
  intros Hup Hm Httl. unfold index_members in Hm.
  unfold redis_sadd, redis_expire, bind, round_trip, get_store, put_store,
    ret, raise.
  cbn [logged store reachable_for calls]. rewrite Hup.
  cbn [logged store reachable_for calls].
  destruct (find now key (store w)) as [e|] eqn:Hf.
  - destruct (value e) as [|ms] eqn:Hv; [discriminate|].
    injection Hm as ->. cbn [store reachable_for calls]. rewrite find_insert.
    apply find_Some in Hf as [_ Hl]. unfold live in *.
    cbn [expires_at value] in *. rewrite Hl.
    cbn [store reachable_for calls expires_at value].
    now rewrite insert_insert_eq, <- !app_assoc.
  - injection Hm as <-. cbn [store reachable_for calls]. rewrite find_insert.
    cbn [live store reachable_for calls expires_at value].
    now rewrite insert_insert_eq, <- !app_assoc, (right_id_L ∅ (∪)).
Qed.

(** What each command adds to the log when it returns. *)
Lemma round_trip_calls cmd w w' :
  round_trip cmd w = Return tt w' ->
  calls w' = (calls w ++ [Redis cmd])%list /\ store w' = store w.
Proof.
  unfold round_trip. destruct (reachable_for w) as [[|n]|];
    [discriminate | |]; now intros [= <-].
Qed.

Lemma redis_sadd_calls now key member w u w' :
  redis_sadd now key member w = Return u w' ->
  calls w' = (calls w ++ [Redis (SADD key member)])%list.
Proof.
  unfold redis_sadd. intros H.
  apply bind_Return in H as ([] & w1 & Hr & H).
  apply round_trip_calls in Hr as [Hr _]. rewrite <- Hr.
  unfold bind, get_store, put_store, raise in H.
  destruct (find now key (store w1)) as [e|];
    [destruct (value e); [discriminate|] |]; now injection H as _ <-.
Qed.

Lemma redis_expire_calls now key ttl w u w' :
  redis_expire now key ttl w = Return u w' ->
  calls w' = (calls w ++ [Redis (EXPIRE key ttl)])%list.
Proof.
  unfold redis_expire. intros H.
  apply bind_Return in H as ([] & w1 & Hr & H).
  apply round_trip_calls in Hr as [Hr _]. rewrite <- Hr.
  unfold bind, get_store, put_store, ret in H.
  destruct (find now key (store w1)) as [e|]; now injection H as _ <-.
Qed.

(** A check that finds no duplicate ends with the two commands that
    register the claim. *)
Lemma check_duplicate_claim_registers_last env now claim w dup w' :
  check_duplicate_claim env now claim w = Return dup w' ->
  is_duplicate dup = false ->
  exists before,
    calls w' =
      (before ++ [Redis (SADD (recent_claims_key claim) (claim_json env claim));
                  Redis (EXPIRE (recent_claims_key claim) 2592000)])%list.
Proof.
  unfold check_duplicate_claim. intros H Hd.
  apply bind_Return in H as (recent & w1 & _ & H).
  destruct (first_similar env claim (elements recent)).
  { injection H as <- _. discriminate. }
  apply bind_Return in H as (u1 & w2 & Hadd & H).
  apply bind_Return in H as (u2 & w3 & Hexp & H).
  injection H as _ <-.
  apply redis_sadd_calls in Hadd. apply redis_expire_calls in Hexp.
  exists (calls w1). now rewrite Hexp, Hadd, <- app_assoc.
Qed.

(** The two ways in which the check returns on a store that stays up. *)
Lemma check_duplicate_claim_found env now claim w members :
  reachable_for w = None ->
  index_members now (recent_claims_key claim) (store w) = Some members ->
  (exists m, m ∈ members /\ similar env claim m = true) ->
  exists s,
    Py.gt s 0.85 = true /\
    check_duplicate_claim env now claim w
    = Return {| is_duplicate := true; similarity := Some s |}
             (logged w [Redis (SMEMBERS (recent_claims_key claim))]).
Proof.
  intros Hup Hm (m & Hin & Hsim).
  pose proof (redis_smembers_up now _ w members Hup Hm) as Hread.
  destruct (first_similar env claim (elements members)) as [s|] eqn:Hfirst.
  - exists s. split; [exact (proj1 (first_similar_Some _ _ _ _ Hfirst))|].
    unfold check_duplicate_claim.
    rewrite (bind_eq_Return _ _ _ _ _ Hread), Hfirst. reflexivity.
  - rewrite first_similar_None in Hfirst.
    rewrite (Hfirst m) in Hsim; [discriminate|].
    now apply elem_of_elements.
Qed.

Lemma check_duplicate_claim_fresh env now claim w members :
  reachable_for w = None ->
  index_members now (recent_claims_key claim) (store w) = Some members ->
  (forall m, m ∈ members -> similar env claim m = false) ->
  let key := recent_claims_key claim in
  check_duplicate_claim env now claim w
  = Return {| is_duplicate := false; similarity := None |}
      {| store :=
           <[key := {| value := RSet ({[claim_json env claim]} ∪ members);
                       expires_at := Some (now + 2592000)%Z |}]> (store w);
         reachable_for := None;
         calls := calls w ++ [Redis (SMEMBERS key);
                              Redis (SADD key (claim_json env claim));
                              Redis (EXPIRE key 2592000)] |}.
Proof.
  intros Hup Hm Hnone key.
  pose proof (redis_smembers_up now key w members Hup Hm) as Hread.
  assert (Hfirst : first_similar env claim (elements members) = None).
  { apply first_similar_None. intros m Hin. apply Hnone.
    now apply elem_of_elements in Hin. }
  unfold check_duplicate_claim. fold key.
  rewrite (bind_eq_Return _ _ _ _ _ Hread), Hfirst.
  pose proof (register_up now key (claim_json env claim) 2592000 w members
                [Redis (SMEMBERS key)] Hup Hm eq_refl) as Hreg.
  unfold bind in Hreg |- *.
  destruct (redis_sadd now key (claim_json env claim)
              (logged w [Redis (SMEMBERS key)])) as [u1 w2|e w2];
    [|discriminate].
  destruct (redis_expire now key 2592000 w2) as [u2 w3|e w3];
    [|discriminate].
  injection Hreg as -> ->. reflexivity.
Qed.

(** C4: the duplicate check compares the incoming claim with the members
    of the claimant's index key that has not expired.  If one of them is
    more than 0.85 similar, the claim is reported as a duplicate and the
    index is left as it was; otherwise the claim is added to the index,
    whose key is given thirty days to live.  In [submit_claim] that
    registration is logged right before the call to the fraud service. *)
Theorem duplicate_check_registers env now claim w members :
  reachable_for w = None ->
  index_members now (recent_claims_key claim) (store w) = Some members ->
  let key := recent_claims_key claim in
  ((exists m, m ∈ members /\ similar env claim m = true) ->
   exists s,
     Py.gt s 0.85 = true /\
     check_duplicate_claim env now claim w
     = Return {| is_duplicate := true; similarity := Some s |}
              (logged w [Redis (SMEMBERS key)])) /\
  ((forall m, m ∈ members -> similar env claim m = false) ->
   check_duplicate_claim env now claim w
   = Return {| is_duplicate := false; similarity := None |}
       {| store :=
            <[key := {| value := RSet ({[claim_json env claim]} ∪ members);
                        expires_at := Some (now + 2592000)%Z |}]> (store w);
          reachable_for := None;
          calls := calls w ++ [Redis (SMEMBERS key);
                               Redis (SADD key (claim_json env claim));
                               Redis (EXPIRE key 2592000)] |}) /\
  (forall w0 r w',
     submit_claim env now claim w0 = Return r w' ->
     response_status r <> "flagged" ->
     exists before after,
       calls w' =
         (before ++ [Redis (SADD key (claim_json env claim));
                     Redis (EXPIRE key 2592000);
                     FraudEvaluate claim] ++ after)%list).
Proof.
  intros Hup Hm key. split; [|split].
  - now apply check_duplicate_claim_found.
  - now apply check_duplicate_claim_fresh.
  - intros w0 r w' H Hnf.
    apply submit_claim_Return in H as (policy & w1 & dup & w2 & _ & _ & Hc & H).
    destruct (is_duplicate dup) eqn:Hd.
    { destruct H as [-> _]. now contradiction Hnf. }
    destruct H as [_ ->].
    destruct (check_duplicate_claim_registers_last _ _ _ _ _ _ Hc Hd)
      as (before & Hcalls).
    exists before. unfold logged, dispatch_calls; simpl. rewrite Hcalls.
    destruct (instant_approval _ _); eexists; rewrite <- app_assoc; reflexivity.
Qed.

Lemma duplicate_check_registers_witness :
  exists w1,
    check_duplicate_claim Fixtures.fakes 0 Fixtures.pipe_burst Fixtures.fresh
      = Return {| is_duplicate := false; similarity := None |} w1 /\
    exists s,
      check_duplicate_claim Fixtures.fakes 10 Fixtures.pipe_burst_again w1
        = Return {| is_duplicate := true; similarity := Some s |}
            (logged w1 [Redis (SMEMBERS "user_claims:usr_987654321:30d")]).
Proof.
  destruct (duplicate_check_registers Fixtures.fakes 0 Fixtures.pipe_burst
              Fixtures.fresh ∅ eq_refl eq_refl) as (_ & Hfresh & _).
  eexists. split.
  - apply Hfresh. intros m Hm. now apply not_elem_of_empty in Hm.
  - match goal with
    | |- context [check_duplicate_claim _ _ _ ?w1] =>
        destruct (duplicate_check_registers Fixtures.fakes 10
                    Fixtures.pipe_burst_again w1
                    {[claim_json Fixtures.fakes Fixtures.pipe_burst]}
                    eq_refl) as (Hfound & _)
    end.
    + vm_compute. reflexivity.
    + destruct Hfound as (s & _ & Hs).
      * exists (claim_json Fixtures.fakes Fixtures.pipe_burst).
        split; [now apply elem_of_singleton | reflexivity].
      * exists s. exact Hs.
Defined.

(** ** Two submissions of one claimant *)

Lemma index_members_registered now1 now2 key members s :
  (now2 < now1 + 2592000)%Z ->
  index_members now2 key
    (<[key := {| value := RSet members;
                 expires_at := Some (now1 + 2592000)%Z |}]> s)
  = Some members.
Proof.
  intros Hlt. unfold index_members. rewrite find_insert. unfold live; simpl.
  now rewrite (proj2 (Z.ltb_lt _ _) Hlt).
Qed.

(** The three steps of one submission, taken in a row, are
    [check_duplicate_claim]. *)
Lemma steps_are_check env now claim other at_other w :
  run env now [First; First; First] claim other AtSmembers at_other w
  = bind (check_duplicate_claim env now claim)
      (fun result => ret (Returned result, at_other)) w.
Proof.
  unfold run, step, check_duplicate_claim, bind, ret.
  destruct (redis_smembers now (recent_claims_key claim) w) as [recent w1|];
    [|reflexivity].
  destruct (first_similar env claim (elements recent)); [reflexivity|].
  destruct (redis_sadd now _ _ w1) as [u1 w2|]; [|reflexivity].
  destruct (redis_expire now _ _ w2) as [u2 w3|]; reflexivity.
Qed.

(** C9 (as the code has it): when the duplicate check of one submission
    has completed before the check of another submission of the same
    claimant starts, and the second claim is more than 0.85 similar to the
    first, the two are never both treated as original: the first is
    original exactly when no index entry is similar to it, and then the
    second is reported as a duplicate. *)
Theorem sequential_checks_never_both_original
    env now1 now2 claim1 claim2 w members :
  reachable_for w = None ->
  index_members now1 (recent_claims_key claim1) (store w) = Some members ->
  user_id claim2 = user_id claim1 ->
  similar env claim2 (claim_json env claim1) = true ->
  (now2 < now1 + 2592000)%Z ->
  exists d1 w1,
    check_duplicate_claim env now1 claim1 w = Return d1 w1 /\
    (is_duplicate d1 = true <->
     exists m, m ∈ members /\ similar env claim1 m = true) /\
    (is_duplicate d1 = false ->
     exists s,
       check_duplicate_claim env now2 claim2 w1
       = Return {| is_duplicate := true; similarity := Some s |}
           (logged w1 [Redis (SMEMBERS (recent_claims_key claim2))])).
Proof.
  intros Hup Hm Huser Hsim Hlt.
  destruct (first_similar env claim1 (elements members)) as [s1|] eqn:Hfirst.
  - (* the first claim is itself a duplicate *)
    apply first_similar_Some in Hfirst as (Hs1 & m & Hin & ->).
    apply elem_of_elements in Hin.
    assert (Hex : exists m, m ∈ members /\ similar env claim1 m = true)
      by (exists m; auto).
    destruct (check_duplicate_claim_found env now1 claim1 w members Hup Hm Hex)
      as (s & _ & Hcheck).
    do 2 eexists. split; [exact Hcheck|]. simpl.
    split; [tauto | discriminate].
  - (* the first claim is registered *)
    rewrite first_similar_None in Hfirst.
    assert (Hnone : forall m, m ∈ members -> similar env claim1 m = false).
    { intros m Hin. apply Hfirst. now apply elem_of_elements. }
    do 2 eexists.
    split; [exact (check_duplicate_claim_fresh env now1 claim1 w members
                     Hup Hm Hnone)|].
    simpl. split.
    + split; [discriminate|]. intros (m & Hin & Hm1).
      rewrite (Hnone m Hin) in Hm1. discriminate.
    + intros _.
      destruct (check_duplicate_claim_found env now2 claim2
                  {| store :=
                       <[recent_claims_key claim1 :=
                           {| value := RSet ({[claim_json env claim1]} ∪ members);
                              expires_at := Some (now1 + 2592000)%Z |}]>
                         (store w);
                     reachable_for := None;
                     calls := calls w ++
                       [Redis (SMEMBERS (recent_claims_key claim1));
                        Redis (SADD (recent_claims_key claim1)
                                 (claim_json env claim1));
                        Redis (EXPIRE (recent_claims_key claim1) 2592000)] |}
                  ({[claim_json env claim1]} ∪ members))
        as (s & _ & Hcheck).
      * reflexivity.
      * unfold recent_claims_key. rewrite Huser.
        now apply index_members_registered.
      * exists (claim_json env claim1). split; [set_solver | exact Hsim].
      * exists s. exact Hcheck.
Qed.

Lemma sequential_checks_never_both_original_witness :
  exists d1 w1 s w2,
    check_duplicate_claim Fixtures.fakes 0 Fixtures.pipe_burst Fixtures.fresh
      = Return d1 w1 /\
    is_duplicate d1 = false /\
    check_duplicate_claim Fixtures.fakes 0 Fixtures.pipe_burst_again w1
      = Return {| is_duplicate := true; similarity := Some s |} w2.
Proof.
  destruct (sequential_checks_never_both_original Fixtures.fakes 0 0
              Fixtures.pipe_burst Fixtures.pipe_burst_again Fixtures.fresh ∅
              eq_refl eq_refl eq_refl eq_refl eq_refl)
    as (d1 & w1 & Hfirst & Horiginal & Hsecond).
  assert (Hd1 : is_duplicate d1 = false).
  { destruct (is_duplicate d1); [|reflexivity].
    destruct (proj1 Horiginal eq_refl) as (m & Hin & _).
    now apply not_elem_of_empty in Hin. }
  destruct (Hsecond Hd1) as (s & Hcheck).
  exists d1, w1, s. eexists. split; [exact Hfirst|]. split; [exact Hd1|].
  exact Hcheck.
Defined.

(** On the sample claims, the schedule that runs one check after the
    other finds the second claim a duplicate. *)
Example one_after_the_other_one_original :
  exists s,
    returned
      (run Fixtures.fakes 0 Fixtures.one_after_the_other
         Fixtures.pipe_burst Fixtures.pipe_burst_again
         AtSmembers AtSmembers Fixtures.fresh)
    = Some (Returned {| is_duplicate := false; similarity := None |},
            Returned {| is_duplicate := true; similarity := Some s |}).
Proof. eexists. vm_compute. reflexivity. Qed.

(** C9, counterexample: [pipe_burst] and [pipe_burst_again] come from the
    same claimant and are similar to each other.  With their commands
    alternating, both checks read the empty index before either claim is
    added to it, and both report the claim as original. *)
Lemma interleaved_checks_both_original :
  user_id Fixtures.pipe_burst = user_id Fixtures.pipe_burst_again /\
  similar Fixtures.fakes Fixtures.pipe_burst
    (claim_json Fixtures.fakes Fixtures.pipe_burst_again) = true /\
  similar Fixtures.fakes Fixtures.pipe_burst_again
    (claim_json Fixtures.fakes Fixtures.pipe_burst) = true /\
  returned
    (run Fixtures.fakes 0 Fixtures.alternating
       Fixtures.pipe_burst Fixtures.pipe_burst_again
       AtSmembers AtSmembers Fixtures.fresh)
  = Some (Returned {| is_duplicate := false; similarity := None |},
          Returned {| is_duplicate := false; similarity := None |}).
Proof. vm_compute. repeat split. Qed.

End ClaimsSpec.


(** * More of the code

    Properties of [make_decision], [evaluate], [validate_policy],
    [check_duplicate_claim], [calculate_payout] and [submit_claim] beyond
    the ones above. *)

From Stdlib Require Floats.

(** ** The order of doubles

    [PrimFloat.ltb] is specified by [SpecFloat.SFltb] on the decoded
    doubles ([FloatAxioms.ltb_spec]). *)

Module FloatOrder.

Import SpecFloat.

(** [SFltb] is transitive. *)
Lemma SFltb_trans x y z :
  SFltb x y = true -> SFltb y z = true -> SFltb x z = true.
Proof.
  unfold SFltb, SFcompare.
  destruct x as [sx|sx| |sx mx ex], y as [sy|sy| |sy my ey],
           z as [sz|sz| |sz mz ez];
    try destruct sx; try destruct sy; try destruct sz;
    try discriminate; try reflexivity;
    change (Pos.compare_cont Eq) with Pos.compare;
    destruct (Z.compare_spec ex ey), (Z.compare_spec ey ez),
      (Z.compare_spec ex ez); subst; try lia; try discriminate;
      try reflexivity;
    destruct (Pos.compare_spec mx my), (Pos.compare_spec my mz),
      (Pos.compare_spec mx mz); simpl; subst; try lia; try discriminate;
      try reflexivity.
Qed.

(** So is [<] on doubles. *)
Lemma ltb_trans (x y z : float) :
  PrimFloat.ltb x y = true -> PrimFloat.ltb y z = true ->
  PrimFloat.ltb x z = true.
Proof. rewrite !FloatAxioms.ltb_spec. apply SFltb_trans. Qed.

(** No double is below [lo] and above [hi] when [lo < hi]. *)
Lemma below_and_above (x lo hi : float) :
  PrimFloat.ltb lo hi = true ->
  PrimFloat.ltb x lo = true -> PrimFloat.ltb hi x = true -> False.
Proof.
  intros Hlh Hx Hh.
  pose proof (ltb_trans _ _ _ (ltb_trans _ _ _ Hh Hx) Hlh) as H.
  rewrite FloatAxioms.ltb_spec in H. unfold SFltb, SFcompare in H.
  destruct (FloatOps.Prim2SF hi) as [s|s| |s m e]; try destruct s;
    try discriminate.
  - rewrite Z.compare_refl in H.
    change (Pos.compare_cont Eq) with Pos.compare in H.
    rewrite Pos.compare_refl in H. discriminate.
  - rewrite Z.compare_refl in H.
    change (Pos.compare_cont Eq) with Pos.compare in H.
    rewrite Pos.compare_refl in H. discriminate.
Qed.
End FloatOrder.

(** ** More on the ensemble *)

Module EnsembleExtra.

Import Ensemble.

(** X1: A risk score above 0.85 is rejected, whatever the anomaly flag and the
    provider scores are: such a score is not below 0.15, so the approve
    test, although it comes first, cannot take it. *)
Theorem high_risk_is_rejected risk anomaly scores :
  Py.gt risk 0.85 = true ->
  make_decision risk anomaly scores = "reject".
Proof.
  intros Hhigh. unfold make_decision.
  destruct (Py.lt risk 0.15) eqn:Hlow.
  - exfalso. apply (FloatOrder.below_and_above risk 0.15 0.85);
      [reflexivity | exact Hlow | exact Hhigh].
  - now rewrite Hhigh.
Qed.

Lemma high_risk_is_rejected_witness :
  make_decision 0.9 false Fixtures.quiet_scores = "reject".
Proof. exact (high_risk_is_rejected 0.9 false _ eq_refl). Defined.

(** Closes a goal whose hypothesis [H] says that a decision taken by the
    reject test or after it is ['instant_approve']. *)
Ltac not_approved H :=
  try replace (Py.lt 1 0.2) with false in H by reflexivity;
  try replace (Py.lt 1 0.3) with false in H by reflexivity;
  try replace (Py.lt 0.5 0.2) with false in H by reflexivity;
  try replace (Py.lt 0.5 0.3) with false in H by reflexivity;
  rewrite ?andb_false_r in H;
  cbn [andb negb] in H;
  match type of H with
  | (if ?b then _ else _) = _ => destruct b; discriminate H
  end.

Section Evaluate.

Context {ClaimData UserHistory Features : Type}.

Variable self : FraudDetectionEnsemble ClaimData UserHistory Features.
Variable claim_data : ClaimData.
Variable user_history : UserHistory.

Hypothesis models_NoDup : NoDup (Py.keys (models self)).

Let features := extract_features self claim_data user_history.
Let result := evaluate self claim_data user_history.

(** The score vector of an evaluation. *)
Lemma breakdown_scored :
  model_breakdown result = EnsembleSpec.scored (models self) features.
Proof.
  unfold result, evaluate; simpl.
  now rewrite EnsembleSpec.collect_scores_app by auto.
Qed.

Lemma lookup_scored_None (items : Py.dict (Model Features)) name :
  Py.lookup items name = None ->
  Py.lookup (EnsembleSpec.scored items features) name = None.
Proof.
  induction items as [|[n m] rest IH]; simpl; [reflexivity|].
  destruct (String.eqb n name); [discriminate | exact IH].
Qed.

(** The score that the vector holds for a provider name, with the default
    that [make_decision] asks for. *)
Lemma get_breakdown name default :
  Py.get (model_breakdown result) name default =
  match Py.lookup (models self) name with
  | Some model => score_or_neutral model features
  | None => default
  end.
Proof.
  rewrite breakdown_scored. unfold Py.get.
  destruct (Py.lookup (models self) name) as [model|] eqn:Hl.
  - now rewrite (EnsembleSpec.lookup_scored _ _ _ _ Hl).
  - now rewrite (lookup_scored_None _ _ Hl).
Qed.

Lemma decision_result :
  decision result =
  make_decision (risk_score result) (is_anomaly result)
    (model_breakdown result).
Proof. reflexivity. Qed.

(** X2: The feature vector handed to the meta-classifier and to the anomaly
    detector has one component per registered provider, in the order of
    registration; the component of a provider that raises is 0.5, in
    place. *)
Theorem feature_vector_follows_registry :
  let vector :=
    map (fun model => score_or_neutral model features)
      (Py.values (models self)) in
  Py.values (model_breakdown result) = vector /\
  length vector = length (models self) /\
  risk_score result = meta_classifier self vector /\
  is_anomaly result = Z.eqb (anomaly_detector self vector) (-1).
Proof.
  assert (Hv : Py.values (model_breakdown result) =
               map (fun model => score_or_neutral model features)
                 (Py.values (models self))).
  { rewrite breakdown_scored. unfold EnsembleSpec.scored, Py.values.
    now rewrite !map_map. }
  cbv zeta. split; [exact Hv|]. split.
  - unfold Py.values. now rewrite !length_map.
  - rewrite <- Hv. split; reflexivity.
Qed.

(** X3: An evaluation decides ['instant_approve'] only if no anomaly was
    found, the risk score is below 0.15, and the providers
    [behavioral_biometrics] and [device_fingerprint] are both registered,
    both answered (neither raised), and answered below 0.2 and 0.3. *)
Theorem instant_approval_needs_both_gates :
  decision result = "instant_approve" ->
  is_anomaly result = false /\
  Py.lt (risk_score result) 0.15 = true /\
  (exists model score,
     Py.lookup (models self) "behavioral_biometrics" = Some model /\
     predict_proba model features = Some score /\
     Py.lt score 0.2 = true) /\
  (exists model score,
     Py.lookup (models self) "device_fingerprint" = Some model /\
     predict_proba model features = Some score /\
     Py.lt score 0.3 = true).
Proof.
  intros H. rewrite decision_result in H. unfold make_decision in H.
  rewrite !get_breakdown in H.
  destruct (Py.lt (risk_score result) 0.15) eqn:Hrisk;
    [|not_approved H].
  destruct (is_anomaly result) eqn:Hanomaly; [not_approved H|].
  destruct (Py.lookup (models self) "behavioral_biometrics") as [bb|];
    [|not_approved H].
  destruct (Py.lookup (models self) "device_fingerprint") as [df|];
    [|not_approved H].
  unfold score_or_neutral in H.
  destruct (predict_proba bb features) as [sbb|] eqn:Hpbb; [|not_approved H].
  destruct (predict_proba df features) as [sdf|] eqn:Hpdf; [|not_approved H].
  destruct (Py.lt sbb 0.2) eqn:Hbb; [|not_approved H].
  destruct (Py.lt sdf 0.3) eqn:Hdf; [|not_approved H].
  split; [reflexivity|]. split; [reflexivity|]. split.
  - exists bb, sbb. auto.
  - exists df, sdf. auto.
Qed.

(** X4: A hard-signal provider that raises does not cause a rejection: with
    [identity_graph] (or [network_analysis]) failing, an evaluation
    decides ['reject'] only on a risk score above 0.85 or on the other
    hard signal. *)
Theorem failed_hard_signal_does_not_reject :
  decision result = "reject" ->
  (forall model,
     Py.lookup (models self) "identity_graph" = Some model ->
     predict_proba model features = None ->
     Py.gt (risk_score result) 0.85 = true \/
     Py.gt (Py.get (model_breakdown result) "network_analysis" 0%float) 0.95
       = true) /\
  (forall model,
     Py.lookup (models self) "network_analysis" = Some model ->
     predict_proba model features = None ->
     Py.gt (risk_score result) 0.85 = true \/
     Py.gt (Py.get (model_breakdown result) "identity_graph" 0%float) 0.9
       = true).
Proof.
  rewrite decision_result. unfold make_decision.
  destruct (_ && _); [discriminate|].
  intros Hreject. split; intros model Hl Hfail.
  - rewrite (get_breakdown "identity_graph"), Hl in Hreject.
    unfold score_or_neutral in Hreject. rewrite Hfail in Hreject.
    replace (Py.gt 0.5 0.9) with false in Hreject by reflexivity.
    rewrite orb_false_r in Hreject.
    destruct (Py.gt (risk_score result) 0.85); [now left|].
    destruct (Py.gt _ 0.95); [now right | discriminate].
  - rewrite (get_breakdown "network_analysis"), Hl in Hreject.
    unfold score_or_neutral in Hreject. rewrite Hfail in Hreject.
    replace (Py.gt 0.5 0.95) with false in Hreject by reflexivity.
    rewrite orb_false_r in Hreject.
    destruct (Py.gt (risk_score result) 0.85); [now left|].
    destruct (Py.gt _ 0.9); [now right | discriminate].
Qed.

End Evaluate.

(** A registry in which every provider is alarmed, except the identity
    graph, whose call raises. *)
Definition alarmed_registry : Py.dict (Model unit) :=
  [("behavioral_biometrics", Fixtures.answering 0.95);
   ("device_fingerprint", Fixtures.answering 0.95);
   ("velocity_checks", Fixtures.answering 0.95);
   ("identity_graph", Fixtures.failing);
   ("claim_pattern", Fixtures.answering 0.95);
   ("network_analysis", Fixtures.answering 0.9);
   ("video_analysis", Fixtures.answering 0.95);
   ("text_sentiment", Fixtures.answering 0.95)].

Lemma alarmed_registry_NoDup : NoDup (Py.keys alarmed_registry).
Proof. compute_done. Qed.

Lemma feature_vector_follows_registry_witness :
  Py.values
    (model_breakdown
       (evaluate (Fixtures.ensemble_of (Fixtures.registry Fixtures.failing))
          tt tt))
  = [0.1; 0.1; 0.1; 0.1; 0.1; 0.1; 0.5; 0.1]%float.
Proof.
  exact (proj1 (feature_vector_follows_registry
                  (Fixtures.ensemble_of (Fixtures.registry Fixtures.failing))
                  tt tt (EnsembleSpec.registry_NoDup _))).
Defined.

Lemma instant_approval_needs_both_gates_witness :
  decision
    (evaluate
       (Fixtures.ensemble_of (Fixtures.registry (Fixtures.answering 0.1)))
       tt tt) = "instant_approve" /\
  exists model score,
    Py.lookup (Fixtures.registry (Fixtures.answering 0.1))
      "behavioral_biometrics" = Some model /\
    predict_proba model tt = Some score /\
    Py.lt score 0.2 = true.
Proof.
  split; [reflexivity|].
  exact (proj1 (proj2 (proj2
           (instant_approval_needs_both_gates
              (Fixtures.ensemble_of
                 (Fixtures.registry (Fixtures.answering 0.1)))
              tt tt (EnsembleSpec.registry_NoDup _) eq_refl)))).
Defined.

Lemma failed_hard_signal_does_not_reject_witness :
  decision (evaluate (Fixtures.ensemble_of alarmed_registry) tt tt)
    = "reject" /\
  (Py.gt (risk_score (evaluate (Fixtures.ensemble_of alarmed_registry) tt tt))
     0.85 = true \/
   Py.gt
     (Py.get
        (model_breakdown
           (evaluate (Fixtures.ensemble_of alarmed_registry) tt tt))
        "network_analysis" 0%float) 0.95 = true).
Proof.
  split; [reflexivity|].
  exact (proj1 (failed_hard_signal_does_not_reject
                  (Fixtures.ensemble_of alarmed_registry) tt tt
                  alarmed_registry_NoDup eq_refl)
           Fixtures.failing eq_refl eq_refl).
Defined.

End EnsembleExtra.

(** ** More on the claims service *)

Module ClaimsExtra.

Import Claims ClaimsSpec.

(** *** Keys *)

Lemma length_append (a b : string) :
  String.length (a ++ b) = String.length a + String.length b.
Proof. induction a as [|c a IH]; simpl; [reflexivity | now rewrite IH]. Qed.

Lemma append_cons c (a b : string) : String c a ++ b = String c (a ++ b).
Proof. reflexivity. Qed.

Lemma append_inv_tail (a b s : string) : a ++ s = b ++ s -> a = b.
Proof.
  revert b. induction a as [|c a IH]; intros [|d b] H.
  - reflexivity.
  - apply (f_equal String.length) in H.
    rewrite !length_append in H. simpl in H. lia.
  - apply (f_equal String.length) in H.
    rewrite !length_append in H. simpl in H. lia.
  - rewrite !append_cons in H. injection H as -> H. now rewrite (IH b H).
Qed.

(** Claimants with different identifiers have different index keys. *)
Lemma recent_claims_key_inj claim1 claim2 :
  recent_claims_key claim1 = recent_claims_key claim2 ->
  user_id claim1 = user_id claim2.
Proof.
  unfold recent_claims_key. rewrite !append_cons. intros H.
  apply (append_inv_tail _ _ ":30d"). now simplify_eq.
Qed.

(** No policy is cached under the index key of a claimant. *)
Lemma policy_key_ne_claims_key policy_id claim :
  "policy:" ++ policy_id <> recent_claims_key claim.
Proof. unfold recent_claims_key. rewrite !append_cons. discriminate. Qed.

(** *** The keys that a computation writes to

    [touches_only key m]: however [m] ends, every key but [key] holds
    what it held before. *)
Definition touches_only {A} (key : string) (m : M A) : Prop :=
  forall w k, k <> key -> store (final (m w)) !! k = store w !! k.

Lemma touches_only_ret {A} key (a : A) : touches_only key (ret a).
Proof. now intros w k _. Qed.

Lemma touches_only_bind {A B} key (m : M A) (k : A -> M B) :
  touches_only key m -> (forall a, touches_only key (k a)) ->
  touches_only key (bind m k).
Proof.
  intros Hm Hk w k0 Hne. specialize (Hm w k0 Hne). unfold bind.
  destruct (m w) as [a w1|e w1]; simpl in *; [|exact Hm].
  now rewrite (Hk a w1 k0 Hne).
Qed.

Lemma touches_only_redis_get now key : touches_only key (redis_get now key).
Proof.
  intros w k _. unfold redis_get, bind, round_trip, get_store, ret, raise.
  destruct (reachable_for w) as [[|n]|]; simpl; try reflexivity;
    destruct (find now key (store w)) as [e|]; try reflexivity;
    destruct (value e); reflexivity.
Qed.

Lemma touches_only_redis_setex now key ttl v :
  touches_only key (redis_setex now key ttl v).
Proof.
  intros w k Hne. unfold redis_setex, bind, round_trip, get_store, put_store.
  destruct (reachable_for w) as [[|n]|]; simpl; try reflexivity;
    now rewrite lookup_insert_ne.
Qed.

Lemma touches_only_redis_smembers now key :
  touches_only key (redis_smembers now key).
Proof.
  intros w k _. unfold redis_smembers, bind, round_trip, get_store, ret, raise.
  destruct (reachable_for w) as [[|n]|]; simpl; try reflexivity;
    destruct (find now key (store w)) as [e|]; try reflexivity;
    destruct (value e); reflexivity.
Qed.

Lemma touches_only_redis_sadd now key member :
  touches_only key (redis_sadd now key member).
Proof.
  intros w k Hne.
  unfold redis_sadd, bind, round_trip, get_store, put_store, raise.
  destruct (reachable_for w) as [[|n]|]; simpl; try reflexivity;
    (destruct (find now key (store w)) as [e|];
     [destruct (value e)|]; simpl; try reflexivity;
     now rewrite lookup_insert_ne).
Qed.

Lemma touches_only_redis_expire now key ttl :
  touches_only key (redis_expire now key ttl).
Proof.
  intros w k Hne.
  unfold redis_expire, bind, round_trip, get_store, put_store, ret.
  destruct (reachable_for w) as [[|n]|]; simpl; try reflexivity;
    (destruct (find now key (store w)) as [e|]; simpl; try reflexivity;
     now rewrite lookup_insert_ne).
Qed.

Lemma touches_only_validate_policy env now policy_id user_id :
  touches_only ("policy:" ++ policy_id)
    (validate_policy env now policy_id user_id).
Proof.
  unfold validate_policy.
  apply touches_only_bind; [apply touches_only_redis_get|].
  intros cached.
  assert (Hfetch : touches_only ("policy:" ++ policy_id)
            match fetch_policy_from_service env policy_id with
            | Some p =>
                bind (redis_setex now ("policy:" ++ policy_id) 300
                        (json_dumps_policy env p))
                  (fun _ => ret (fetch_policy_from_service env policy_id))
            | None => ret (fetch_policy_from_service env policy_id)
            end).
  { destruct (fetch_policy_from_service env policy_id).
    - apply touches_only_bind; [apply touches_only_redis_setex|].
      intros _. apply touches_only_ret.
    - apply touches_only_ret. }
  destruct cached as [c|]; [|exact Hfetch].
  destruct (String.eqb c ""); [exact Hfetch | apply touches_only_ret].
Qed.

Lemma touches_only_check_duplicate_claim env now claim :
  touches_only (recent_claims_key claim)
    (check_duplicate_claim env now claim).
Proof.
  unfold check_duplicate_claim.
  apply touches_only_bind; [apply touches_only_redis_smembers|].
  intros recent. destruct (first_similar env claim (elements recent)).
  - apply touches_only_ret.
  - apply touches_only_bind; [apply touches_only_redis_sadd|]. intros _.
    apply touches_only_bind; [apply touches_only_redis_expire|]. intros _.
    apply touches_only_ret.
Qed.

(** Another claimant, with the words of [pipe_burst]. *)
Definition neighbour_claim : ClaimRequest :=
  {| claim_id := "clm_9";
     policy_id := "pol_123456789";
     user_id := "usr_111111111";
     claim_type := "water_damage";
     incident_date := 1705329000;
     description := "Pipe burst in kitchen causing floor damage";
     estimated_amount := 3500;
     video_evidence_url := None;
     photos := [];
     location := [("lat", 40.7128%float); ("lng", (-74.0060)%float)] |}.

(** X5: The duplicate check of one claimant leaves the index of every other
    claimant, and every cached policy, as they were, however the check
    ends: claims are only ever compared with claims of the same
    [user_id]. *)
Theorem claimant_isolation env now claim other w :
  user_id other <> user_id claim ->
  let w' := final (check_duplicate_claim env now claim w) in
  store w' !! recent_claims_key other = store w !! recent_claims_key other /\
  forall policy_id,
    store w' !! ("policy:" ++ policy_id) = store w !! ("policy:" ++ policy_id).
Proof.
  intros Hne w'. split.
  - apply touches_only_check_duplicate_claim.
    intros H. apply Hne. exact (recent_claims_key_inj _ _ H).
  - intros policy_id. apply touches_only_check_duplicate_claim.
    apply policy_key_ne_claims_key.
Qed.

Lemma claimant_isolation_witness :
  store (final (check_duplicate_claim Fixtures.fakes 0 Fixtures.pipe_burst
                  Fixtures.fresh))
    !! recent_claims_key neighbour_claim = None.
Proof.
  destruct (claimant_isolation Fixtures.fakes 0 Fixtures.pipe_burst
              neighbour_claim Fixtures.fresh) as [Hindex _].
  - discriminate.
  - rewrite Hindex. reflexivity.
Defined.

(** *** The exceptions of the Redis client

    [redis_errors m]: when [m] raises, it raises [ConnectionError] or
    [ResponseError]. *)
Definition redis_errors {A} (m : M A) : Prop :=
  forall w e w', m w = Raise e w' -> e = ConnectionError \/ e = ResponseError.

Lemma redis_errors_ret {A} (a : A) : redis_errors (ret a).
Proof. intros w e w' H. discriminate. Qed.

Lemma redis_errors_bind {A B} (m : M A) (k : A -> M B) :
  redis_errors m -> (forall a, redis_errors (k a)) -> redis_errors (bind m k).
Proof.
  intros Hm Hk w e w' H.
  apply bind_Raise in H as [H|(a & w1 & _ & H)];
    [exact (Hm _ _ _ H) | exact (Hk a _ _ _ H)].
Qed.

Lemma redis_errors_round_trip cmd : redis_errors (round_trip cmd).
Proof.
  intros w e w'. unfold round_trip.
  destruct (reachable_for w) as [[|n]|]; intros [= <- _] || discriminate.
  now left.
Qed.

Lemma redis_errors_redis_get now key : redis_errors (redis_get now key).
Proof.
  unfold redis_get.
  apply redis_errors_bind; [apply redis_errors_round_trip|]. intros _.
  intros w e w'. unfold bind, get_store, ret, raise.
  destruct (find now key (store w)) as [entry|]; [|discriminate].
  destruct (value entry); [discriminate|]. intros [= <- _]. now right.
Qed.

Lemma redis_errors_redis_setex now key ttl v :
  redis_errors (redis_setex now key ttl v).
Proof.
  unfold redis_setex.
  apply redis_errors_bind; [apply redis_errors_round_trip|]. intros _.
  intros w e w'. unfold bind, get_store, put_store. discriminate.
Qed.

Lemma redis_errors_redis_smembers now key :
  redis_errors (redis_smembers now key).
Proof.
  unfold redis_smembers.
  apply redis_errors_bind; [apply redis_errors_round_trip|]. intros _.
  intros w e w'. unfold bind, get_store, ret, raise.
  destruct (find now key (store w)) as [entry|]; [|discriminate].
  destruct (value entry); [|discriminate]. intros [= <- _]. now right.
Qed.

Lemma redis_errors_redis_sadd now key member :
  redis_errors (redis_sadd now key member).
Proof.
  unfold redis_sadd.
  apply redis_errors_bind; [apply redis_errors_round_trip|]. intros _.
  intros w e w'. unfold bind, get_store, put_store, raise.
  destruct (find now key (store w)) as [entry|]; [|discriminate].
  destruct (value entry); [|discriminate]. intros [= <- _]. now right.
Qed.

Lemma redis_errors_redis_expire now key ttl :
  redis_errors (redis_expire now key ttl).
Proof.
  unfold redis_expire.
  apply redis_errors_bind; [apply redis_errors_round_trip|]. intros _.
  intros w e w'. unfold bind, get_store, put_store, ret.
  destruct (find now key (store w)); discriminate.
Qed.

Lemma redis_errors_validate_policy env now policy_id user_id :
  redis_errors (validate_policy env now policy_id user_id).
Proof.
  unfold validate_policy.
  apply redis_errors_bind; [apply redis_errors_redis_get|]. intros cached.
  assert (Hfetch : redis_errors
            match fetch_policy_from_service env policy_id with
            | Some p =>
                bind (redis_setex now ("policy:" ++ policy_id) 300
                        (json_dumps_policy env p))
                  (fun _ => ret (fetch_policy_from_service env policy_id))
            | None => ret (fetch_policy_from_service env policy_id)
            end).
  { destruct (fetch_policy_from_service env policy_id).
    - apply redis_errors_bind; [apply redis_errors_redis_setex|].
      intros _. apply redis_errors_ret.
    - apply redis_errors_ret. }
  destruct cached as [c|]; [|exact Hfetch].
  destruct (String.eqb c ""); [exact Hfetch | apply redis_errors_ret].
Qed.

Lemma redis_errors_check_duplicate_claim env now claim :
  redis_errors (check_duplicate_claim env now claim).
Proof.
  unfold check_duplicate_claim.
  apply redis_errors_bind; [apply redis_errors_redis_smembers|].
  intros recent. destruct (first_similar env claim (elements recent)).
  - apply redis_errors_ret.
  - apply redis_errors_bind; [apply redis_errors_redis_sadd|]. intros _.
    apply redis_errors_bind; [apply redis_errors_redis_expire|]. intros _.
    apply redis_errors_ret.
Qed.

(** *** Invalid policies *)

(** The collaborators of [Fixtures.fakes], with a policy service whose
    only policy has been cancelled. *)
Definition cancelled_policy : Policy :=
  {| status := "cancelled";
     coverage_limits := coverage_limits Fixtures.home_policy;
     deductible := deductible Fixtures.home_policy |}.

Definition fakes_cancelled : Collaborators :=
  {| claim_json := claim_json Fixtures.fakes;
     json_loads_claim := json_loads_claim Fixtures.fakes;
     json_dumps_policy := json_dumps_policy Fixtures.fakes;
     json_loads_policy := json_loads_policy Fixtures.fakes;
     fetch_policy_from_service := fun _ => Some cancelled_policy;
     fraud_detection_evaluate := fraud_detection_evaluate Fixtures.fakes;
     calculate_similarity := calculate_similarity Fixtures.fakes |}.

(** X6: [submit_claim] raises an [HTTPException] exactly when
    [validate_policy] returns no policy or one whose status is not
    ['active'], and then with status code 400.  The submission ends in the
    state that the policy lookup left: no claim index has been read or
    written, nothing has been scored and no action dispatched. *)
Theorem invalid_policy_is_refused env now claim w code detail w' :
  submit_claim env now claim w = Raise (HTTPException code detail) w' <->
  code = 400%Z /\ detail = "Invalid or inactive policy" /\
  (validate_policy env now (policy_id claim) (user_id claim) w
     = Return None w' \/
   exists policy,
     validate_policy env now (policy_id claim) (user_id claim) w
       = Return (Some policy) w' /\
     status policy <> "active") /\
  scorings w' = scorings w /\ actions w' = actions w /\
  forall other,
    store w' !! recent_claims_key other = store w !! recent_claims_key other.
Proof.
  assert (Hframe : forall result w1,
            validate_policy env now (policy_id claim) (user_id claim) w
              = Return result w1 ->
            scorings w1 = scorings w /\ actions w1 = actions w /\
            forall other, store w1 !! recent_claims_key other
                          = store w !! recent_claims_key other).
  { intros result w1 Hv.
    destruct (silent_frame _ w (silent_validate_policy env now
                (policy_id claim) (user_id claim))) as [Hs Ha].
    rewrite Hv in Hs, Ha. split; [exact Hs|]. split; [exact Ha|].
    intros other.
    pose proof (touches_only_validate_policy env now (policy_id claim)
                  (user_id claim) w (recent_claims_key other)) as Ht.
    rewrite Hv in Ht. apply Ht. intros H.
    exact (policy_key_ne_claims_key _ _ (eq_sym H)). }
  split.
  - intros H. unfold submit_claim in H.
    apply bind_Raise in H as [H|(result & w1 & Hv & H)].
    { apply redis_errors_validate_policy in H as [H|H]; discriminate. }
    destruct result as [policy|].
    + destruct (String.eqb_spec (status policy) "active") as [Hs|Hs];
        cbn [negb] in H.
      * exfalso.
        apply bind_Raise in H as [H|(dup & w2 & Hc & H)].
        { apply redis_errors_check_duplicate_claim in H as [H|H];
            discriminate. }
        destruct (is_duplicate dup); [discriminate|].
        unfold bind, log, ret in H.
        destruct (instant_approval _ _); discriminate.
      * injection H as <- <- <-. repeat split; eauto; now apply (Hframe _ _ Hv).
    + injection H as <- <- <-. repeat split; eauto; now apply (Hframe _ _ Hv).
  - intros (-> & -> & [Hv|(policy & Hv & Hs)] & _); unfold submit_claim;
      rewrite (bind_eq_Return _ _ _ _ _ Hv); [reflexivity|].
    now destruct (String.eqb_spec (status policy) "active").
Qed.

Lemma invalid_policy_is_refused_witness :
  exists w',
    submit_claim fakes_cancelled 0 Fixtures.pipe_burst Fixtures.fresh
      = Raise (HTTPException 400 "Invalid or inactive policy") w' /\
    store w' !! recent_claims_key Fixtures.pipe_burst = None.
Proof.
  assert (Hv : exists w',
             validate_policy fakes_cancelled 0 "pol_123456789" "usr_987654321"
               Fixtures.fresh = Return (Some cancelled_policy) w')
    by (eexists; vm_compute; reflexivity).
  destruct Hv as (w' & Hv). exists w'.
  destruct (invalid_policy_is_refused fakes_cancelled 0 Fixtures.pipe_burst
              Fixtures.fresh 400 "Invalid or inactive policy" w')
    as [Honly Hif].
  assert (Hraise : submit_claim fakes_cancelled 0 Fixtures.pipe_burst
                     Fixtures.fresh
                   = Raise (HTTPException 400 "Invalid or inactive policy") w').
  { apply Hif. split; [reflexivity|]. split; [reflexivity|].
    assert (Hcause : exists policy,
               validate_policy fakes_cancelled 0 "pol_123456789"
                 "usr_987654321" Fixtures.fresh = Return (Some policy) w' /\
               status policy <> "active")
      by (exists cancelled_policy; split; [exact Hv | discriminate]).
    split; [right; exact Hcause|].
    destruct (silent_frame _ Fixtures.fresh
                (silent_validate_policy fakes_cancelled 0 "pol_123456789"
                   "usr_987654321")) as [Hs Ha].
    rewrite Hv in Hs, Ha. split; [exact Hs|]. split; [exact Ha|].
    intros other.
    pose proof (touches_only_validate_policy fakes_cancelled 0
                  "pol_123456789" "usr_987654321" Fixtures.fresh
                  (recent_claims_key other)) as Ht.
    rewrite Hv in Ht. apply Ht. intros H.
    exact (policy_key_ne_claims_key _ _ (eq_sym H)). }
  split; [exact Hraise|].
  destruct (Honly Hraise) as (_ & _ & _ & _ & _ & Hstore).
  rewrite Hstore. reflexivity.
Defined.

(** *** Responses *)

(** X7: Every response of [submit_claim] carries the identifier of the claim
    and one of the statuses ['flagged'], ['instant_approved'] and
    ['under_review'], never ['rejected'].  It names a payout amount
    exactly when the claim is instantly approved; the confidence is 0 for
    a flagged claim and the fraud service's otherwise. *)
Theorem response_shape env now claim w r w' :
  submit_claim env now claim w = Return r w' ->
  response_claim_id r = claim_id claim /\
  (response_status r = "flagged" \/
   response_status r = "instant_approved" \/
   response_status r = "under_review") /\
  response_status r <> "rejected" /\
  (payout_amount r <> None <-> response_status r = "instant_approved") /\
  (response_status r = "flagged" -> confidence_score r = 0%float) /\
  (response_status r <> "flagged" ->
   confidence_score r = confidence (fraud_detection_evaluate env claim)).
Proof.
  intros H.
  apply submit_claim_Return in H as (policy & w1 & dup & w2 & _ & _ & _ & H).
  destruct (is_duplicate dup); destruct H as [-> _].
  - simpl. repeat split; auto; try discriminate; try tauto.
  - unfold dispatch_response. destruct (instant_approval _ _); simpl;
      repeat split; auto; try discriminate; try tauto.
Qed.

Lemma response_shape_witness :
  exists r w',
    submit_claim Fixtures.fakes 0 Fixtures.pipe_burst Fixtures.fresh
      = Return r w' /\
    response_claim_id r = "clm_1" /\ response_status r <> "rejected".
Proof.
  assert (E : exists r w',
             submit_claim Fixtures.fakes 0 Fixtures.pipe_burst Fixtures.fresh
               = Return r w')
    by (do 2 eexists; vm_compute; reflexivity).
  destruct E as (r & w' & E). exists r, w'. split; [exact E|].
  destruct (response_shape _ _ _ _ _ _ E) as (Hid & _ & Hnot & _).
  split; [exact Hid | exact Hnot].
Defined.

(** X8: A claim is instantly approved only if its type is ['theft'] or
    ['water_damage'], its estimated amount is below 5000, and the fraud
    service reports risk level ['low'] with a confidence above 0.85; a
    claim that is routed to an adjuster fails one of these tests. *)
Theorem instant_approval_gate env now claim w r w' :
  submit_claim env now claim w = Return r w' ->
  let fraud_score := fraud_detection_evaluate env claim in
  (response_status r = "instant_approved" ->
   (claim_type claim = "theft" \/ claim_type claim = "water_damage") /\
   Py.lt (estimated_amount claim) 5000 = true /\
   risk_level fraud_score = "low" /\
   Py.gt (confidence fraud_score) 0.85 = true) /\
  (response_status r = "under_review" ->
   (claim_type claim <> "theft" /\ claim_type claim <> "water_damage") \/
   Py.lt (estimated_amount claim) 5000 = false \/
   risk_level fraud_score <> "low" \/
   Py.gt (confidence fraud_score) 0.85 = false).
Proof.
  intros H fraud_score.
  apply submit_claim_Return in H as (policy & w1 & dup & w2 & _ & _ & _ & H).
  destruct (is_duplicate dup); destruct H as [-> _].
  { split; discriminate. }
  unfold dispatch_response. fold fraud_score.
  unfold instant_approval. simpl existsb.
  destruct (String.eqb_spec (risk_level fraud_score) "low") as [Hlow|Hlow];
    destruct (Py.lt (estimated_amount claim) 5000);
    destruct (Py.gt (confidence fraud_score) 0.85);
    destruct (String.eqb_spec (claim_type claim) "theft") as [Ht|Ht];
    destruct (String.eqb_spec (claim_type claim) "water_damage") as [Hw|Hw];
    simpl; split; intros Hst; try discriminate Hst; auto 6.
Qed.

Lemma instant_approval_gate_witness :
  claim_type Fixtures.pipe_burst = "theft" \/
  claim_type Fixtures.pipe_burst = "water_damage".
Proof.
  assert (E : exists r w',
             submit_claim Fixtures.fakes 0 Fixtures.pipe_burst Fixtures.fresh
               = Return r w' /\ response_status r = "instant_approved")
    by (do 2 eexists; split; vm_compute; reflexivity).
  destruct E as (r & w' & E & Hst).
  exact (proj1 (proj1 (instant_approval_gate _ _ _ _ _ _ E) Hst)).
Defined.

(** The events sent to Kafka. *)
Definition is_event (c : Call) : bool :=
  match c with
  | KafkaSend _ _ => true
  | _ => false
  end.

Definition events (w : World) : list Call := List.filter is_event (calls w).

Lemma silent_events {A} (m : M A) w :
  silent m -> events (final (m w)) = events w.
Proof.
  intros Hm. destruct (Hm w) as (l & E & F). unfold events.
  rewrite E, List.filter_app, (filter_redis_nil _ l), app_nil_r; auto.
Qed.

(** X9: A submission sends an event to Kafka exactly when it answers with a
    payout amount: one event on the topic [claims.instant_approved], with
    the identifier of the claim, the fraud service's score and the amount
    of the response.  Flagged and reviewed claims send none. *)
Theorem event_per_instant_approval env now claim w r w' :
  submit_claim env now claim w = Return r w' ->
  events w' =
  (events w ++
   match payout_amount r with
   | Some amount =>
       [KafkaSend "claims.instant_approved"
          {| event_claim_id := claim_id claim;
             event_amount := amount;
             event_fraud_score := score (fraud_detection_evaluate env claim) |}]
   | None => []
   end)%list.
Proof.
  intros H.
  apply submit_claim_Return in H as (policy & w1 & dup & w2 & Hv & _ & Hc & H).
  pose proof (silent_events _ w (silent_validate_policy env now
                (policy_id claim) (user_id claim))) as H1.
  pose proof (silent_events _ w1 (silent_check_duplicate_claim env now claim))
    as H2.
  rewrite Hv in H1. rewrite Hc in H2. simpl in H1, H2.
  destruct (is_duplicate dup); destruct H as [-> ->].
  - simpl. rewrite app_nil_r. congruence.
  - unfold events, logged; simpl. rewrite List.filter_app.
    fold (events w2). rewrite H2, H1.
    unfold dispatch_response, dispatch_calls.
    destruct (instant_approval _ _); reflexivity.
Qed.

Lemma event_per_instant_approval_witness :
  exists r w',
    submit_claim Fixtures.fakes 0 Fixtures.pipe_burst Fixtures.fresh
      = Return r w' /\
    events w' =
      [KafkaSend "claims.instant_approved"
         {| event_claim_id := "clm_1";
            event_amount := 3000;
            event_fraud_score := 0.05 |}].
Proof.
  assert (E : exists r w',
             submit_claim Fixtures.fakes 0 Fixtures.pipe_burst Fixtures.fresh
               = Return r w' /\ payout_amount r = Some 3000%float)
    by (do 2 eexists; split; vm_compute; reflexivity).
  destruct E as (r & w' & E & Hp). exists r, w'. split; [exact E|].
  rewrite (event_per_instant_approval _ _ _ _ _ _ E), Hp. reflexivity.
Defined.

(** *** The policy cache *)

Lemma redis_get_up now key w :
  reachable_for w = None ->
  redis_get now key w =
  match find now key (store w) with
  | None => Return None (logged w [Redis (GET key)])
  | Some entry =>
      match value entry with
      | RString v => Return (Some v) (logged w [Redis (GET key)])
      | RSet _ => Raise ResponseError (logged w [Redis (GET key)])
      end
  end.
Proof.
  intros Hup. unfold redis_get.
  rewrite (bind_eq_Return _ _ _ _ _ (round_trip_up _ _ Hup)).
  unfold bind, get_store, ret, raise. cbn [logged store].
  destruct (find now key (store w)) as [entry|]; [|reflexivity].
  destruct (value entry); reflexivity.
Qed.

Lemma redis_setex_up now key ttl v w :
  reachable_for w = None ->
  redis_setex now key ttl v w =
  Return tt
    {| store := <[key := {| value := RString v;
                            expires_at := Some (now + ttl)%Z |}]> (store w);
       reachable_for := None;
       calls := calls w ++ [Redis (SETEX key ttl v)] |}.
Proof.
  intros Hup. unfold redis_setex.
  rewrite (bind_eq_Return _ _ _ _ _ (round_trip_up _ _ Hup)).
  unfold bind, get_store, put_store, logged. cbn [store reachable_for calls].
  now rewrite Hup.
Qed.



(** *** What a returning command tells about the store *)

Lemma round_trip_Return cmd w u w' :
  round_trip cmd w = Return u w' -> store w' = store w.
Proof.
  unfold round_trip. destruct (reachable_for w) as [[|n]|];
    [discriminate | |]; now intros [= _ <-].
Qed.

Lemma redis_smembers_Return now key w members w' :
  redis_smembers now key w = Return members w' ->
  index_members now key (store w) = Some members /\ store w' = store w.
Proof.
  unfold redis_smembers. intros H.
  apply bind_Return in H as (u & w1 & Hr & H).
  apply round_trip_Return in Hr. unfold index_members. rewrite <- Hr.
  unfold bind, get_store, ret, raise in H.
  destruct (find now key (store w1)) as [entry|].
  - destruct (value entry); [discriminate|]. now injection H as <- <-.
  - now injection H as <- <-.
Qed.

Lemma redis_sadd_Return now key member w u w' :
  redis_sadd now key member w = Return u w' ->
  exists entry members,
    store w' = <[key := entry]> (store w) /\
    value entry = RSet members /\ member ∈ members /\
    live now entry = true.
Proof.
  unfold redis_sadd. intros H.
  apply bind_Return in H as (u1 & w1 & Hr & H).
  apply round_trip_Return in Hr. rewrite <- Hr.
  unfold bind, get_store, put_store, raise in H.
  destruct (find now key (store w1)) as [entry|] eqn:Hf.
  - destruct (value entry) as [|members]; [discriminate|].
    injection H as _ <-. apply find_Some in Hf as [_ Hlive].
    do 2 eexists. repeat split; [set_solver | exact Hlive].
  - injection H as _ <-.
    do 2 eexists. repeat split. set_solver.
Qed.

Lemma redis_expire_Return now key ttl w u w' entry :
  redis_expire now key ttl w = Return u w' ->
  store w !! key = Some entry -> live now entry = true ->
  store w' = <[key := {| value := value entry;
                         expires_at := Some (now + ttl)%Z |}]> (store w).
Proof.
  unfold redis_expire. intros H Hl Hlive.
  apply bind_Return in H as (u1 & w1 & Hr & H).
  apply round_trip_Return in Hr. rewrite <- Hr in *.
  unfold bind, get_store, put_store, ret in H.
  unfold find in H. rewrite Hl, Hlive in H. now injection H as _ <-.
Qed.

(** A check that returns "no duplicate" has left the claim in the index,
    under a key with thirty days to live. *)
Lemma check_duplicate_claim_registered env now claim w dup w' :
  check_duplicate_claim env now claim w = Return dup w' ->
  is_duplicate dup = false ->
  exists members,
    store w' !! recent_claims_key claim
    = Some {| value := RSet members;
              expires_at := Some (now + 2592000)%Z |} /\
    claim_json env claim ∈ members.
Proof.
  unfold check_duplicate_claim. intros H Hd.
  apply bind_Return in H as (recent & w1 & _ & H).
  destruct (first_similar env claim (elements recent)).
  { injection H as <- _. discriminate. }
  apply bind_Return in H as (u1 & w2 & Hadd & H).
  apply bind_Return in H as (u2 & w3 & Hexp & H).
  injection H as _ <-.
  apply redis_sadd_Return in Hadd
    as (entry & members & Hstore & Hvalue & Hin & Hlive).
  apply (redis_expire_Return _ _ _ _ _ _ entry) in Hexp;
    [|rewrite Hstore; apply lookup_insert_eq | exact Hlive].
  exists members. rewrite Hexp, lookup_insert_eq, Hvalue. auto.
Qed.

(** A check that returns on an index with a similar member reports a
    duplicate. *)
Lemma check_duplicate_claim_similar env now claim w dup w' members m :
  check_duplicate_claim env now claim w = Return dup w' ->
  index_members now (recent_claims_key claim) (store w) = Some members ->
  m ∈ members -> similar env claim m = true ->
  is_duplicate dup = true.
Proof.
  unfold check_duplicate_claim. intros H Hm Hin Hsim.
  apply bind_Return in H as (recent & w1 & Hread & H).
  apply redis_smembers_Return in Hread as [Hread _].
  rewrite Hm in Hread. injection Hread as <-.
  destruct (first_similar env claim (elements members)) eqn:Hfirst.
  { now injection H as <- _. }
  rewrite first_similar_None in Hfirst.
  rewrite (Hfirst m) in Hsim; [discriminate | now apply elem_of_elements].
Qed.

(** *** Resubmissions *)

(** X12: Once a submission has been answered with a status other than
    ['flagged'], every later submission of the same claimant that is more
    than 0.85 similar to it, and arrives before thirty days have passed,
    is answered ['flagged'] if it is answered at all: it is not scored
    and dispatches nothing.  This holds for a retry of the claim itself
    when the claim is similar to its own stored copy. *)
Theorem similar_resubmission_is_flagged
    env now now2 claim claim2 w r1 w1 r2 w2 :
  submit_claim env now claim w = Return r1 w1 ->
  response_status r1 <> "flagged" ->
  user_id claim2 = user_id claim ->
  similar env claim2 (claim_json env claim) = true ->
  (now2 < now + 2592000)%Z ->
  submit_claim env now2 claim2 w1 = Return r2 w2 ->
  r2 = flagged_response claim2 /\
  scorings w2 = scorings w1 /\ actions w2 = actions w1.
Proof.
  intros H1 Hnf Huser Hsim Hlt H2.
  apply submit_claim_Return in H1
    as (policy1 & wa & dup1 & wb & _ & _ & Hc1 & H1).
  destruct (is_duplicate dup1) eqn:Hd1.
  { destruct H1 as [-> _]. now contradiction Hnf. }
  destruct H1 as [_ ->].
  destruct (check_duplicate_claim_registered _ _ _ _ _ _ Hc1 Hd1)
    as (members & Hentry & Hin).
  pose proof H2 as H2'.
  apply submit_claim_Return in H2
    as (policy2 & wc & dup2 & wd & Hv2 & _ & Hc2 & H2).
  assert (Hindex : index_members now2 (recent_claims_key claim2) (store wc)
                   = Some members).
  { pose proof (touches_only_validate_policy env now2 (policy_id claim2)
                  (user_id claim2)
                  (logged wb (dispatch_calls env claim policy1))
                  (recent_claims_key claim2)) as Ht.
    rewrite Hv2 in Ht. simpl in Ht.
    unfold index_members, find. rewrite Ht.
    - unfold recent_claims_key in *. rewrite Huser, Hentry.
      unfold live; simpl. now rewrite (proj2 (Z.ltb_lt _ _) Hlt).
    - intros H. exact (policy_key_ne_claims_key _ _ (eq_sym H)). }
  rewrite (check_duplicate_claim_similar _ _ _ _ _ _ _ _ Hc2 Hindex Hin Hsim)
    in H2.
  destruct H2 as [-> ->].
  destruct (one_action_per_submission _ _ _ _ _ _ H2')
    as [(_ & Hs & Ha)|(task & [Hst|Hst] & _)]; [auto | discriminate..].
Qed.

Lemma similar_resubmission_is_flagged_witness :
  exists r1 w1 r2 w2,
    submit_claim Fixtures.fakes 0 Fixtures.pipe_burst Fixtures.fresh
      = Return r1 w1 /\
    submit_claim Fixtures.fakes 10 Fixtures.pipe_burst w1 = Return r2 w2 /\
    r2 = flagged_response Fixtures.pipe_burst.
Proof.
  assert (E : exists r1 w1 r2 w2,
             submit_claim Fixtures.fakes 0 Fixtures.pipe_burst Fixtures.fresh
               = Return r1 w1 /\
             submit_claim Fixtures.fakes 10 Fixtures.pipe_burst w1
               = Return r2 w2 /\
             response_status r1 <> "flagged")
    by (do 4 eexists; repeat split;
        [vm_compute; reflexivity | vm_compute; reflexivity
        | vm_compute; discriminate]).
  destruct E as (r1 & w1 & r2 & w2 & E1 & E2 & Hnf).
  exists r1, w1, r2, w2. split; [exact E1|]. split; [exact E2|].
  exact (proj1 (similar_resubmission_is_flagged Fixtures.fakes 0 10
                  Fixtures.pipe_burst Fixtures.pipe_burst _ _ _ _ _
                  E1 Hnf eq_refl eq_refl eq_refl E2)).
Defined.

(** *** The lifetime of the claim index *)

(** X13: Each registration renews the thirty days of the whole index key, so
    the entries before it live on with it: after two registrations, the
    first claim is still in the index until thirty days after the second
    one, which may be more than thirty days after it was itself
    registered. *)
Theorem registration_renews_older_entries
    env now1 now2 now3 claim1 claim2 w members :
  reachable_for w = None ->
  index_members now1 (recent_claims_key claim1) (store w) = Some members ->
  user_id claim2 = user_id claim1 ->
  (forall m, m ∈ members -> similar env claim1 m = false) ->
  (forall m, m ∈ {[claim_json env claim1]} ∪ members ->
             similar env claim2 m = false) ->
  (now2 < now1 + 2592000)%Z ->
  (now3 < now2 + 2592000)%Z ->
  let w1 := final (check_duplicate_claim env now1 claim1 w) in
  let w2 := final (check_duplicate_claim env now2 claim2 w1) in
  index_members now3 (recent_claims_key claim1) (store w2)
  = Some ({[claim_json env claim2]} ∪ ({[claim_json env claim1]} ∪ members)).
Proof.
  intros Hup Hm Huser Hnone1 Hnone2 Hlt2 Hlt3 w1 w2.
  assert (Hkey : recent_claims_key claim2 = recent_claims_key claim1)
    by (unfold recent_claims_key; now rewrite Huser).
  unfold w2, w1.
  rewrite (check_duplicate_claim_fresh env now1 claim1 w members Hup Hm Hnone1).
  cbn [final].
  erewrite (check_duplicate_claim_fresh env now2 claim2 _
              ({[claim_json env claim1]} ∪ members)); [| reflexivity | | exact Hnone2].
  - cbn [final store]. rewrite Hkey. now apply index_members_registered.
  - cbn [store]. rewrite Hkey. now apply index_members_registered.
Qed.

Lemma registration_renews_older_entries_witness :
  let w1 :=
    final (check_duplicate_claim Fixtures.fakes 0 Fixtures.pipe_burst
             Fixtures.fresh) in
  let w2 :=
    final (check_duplicate_claim Fixtures.fakes 2000000
             Fixtures.stolen_umbrella w1) in
  index_members 4000000 (recent_claims_key Fixtures.pipe_burst) (store w2)
  = Some ({[claim_json Fixtures.fakes Fixtures.stolen_umbrella]}
          ∪ ({[claim_json Fixtures.fakes Fixtures.pipe_burst]} ∪ ∅)).
Proof.
  apply (registration_renews_older_entries Fixtures.fakes 0 2000000 4000000
           Fixtures.pipe_burst Fixtures.stolen_umbrella Fixtures.fresh ∅);
    try reflexivity.
  - intros m Hm. now apply not_elem_of_empty in Hm.
  - intros m Hm. apply elem_of_union in Hm as [Hm|Hm].
    + apply elem_of_singleton in Hm. now subst m.
    + now apply not_elem_of_empty in Hm.
Defined.



(** A store that answers two more commands. *)
Definition down_after_sadd : World :=
  {| store := ∅; reachable_for := Some 2; calls := [] |}.

(** X15: When the store goes down between [SADD] and [EXPIRE] of the first claim
    of a claimant, the check ends with [ConnectionError] although the
    claim has been added to the index, under a key that has no time to
    live: the entry is there at every later time. *)
Theorem outage_before_expire_leaves_entry_for_good env now claim w :
  reachable_for w = Some 2 ->
  find now (recent_claims_key claim) (store w) = None ->
  let key := recent_claims_key claim in
  let w' :=
    {| store := <[key := {| value := RSet {[claim_json env claim]};
                            expires_at := None |}]> (store w);
       reachable_for := Some 0;
       calls := calls w ++ [Redis (SMEMBERS key);
                            Redis (SADD key (claim_json env claim))] |} in
  check_duplicate_claim env now claim w = Raise ConnectionError w' /\
  forall later,
    index_members later key (store w') = Some {[claim_json env claim]}.
Proof.
  intros Hup Hmiss key w'. subst key. split.
  - unfold check_duplicate_claim, redis_smembers, redis_sadd, redis_expire,
      bind, round_trip, get_store, put_store, ret, raise.
    rewrite Hup. cbn [store reachable_for calls]. rewrite Hmiss.
    rewrite elements_empty. cbn [first_similar].
    cbn [store reachable_for calls]. rewrite Hmiss.
    cbn [store reachable_for calls]. unfold w'.
    now rewrite <- app_assoc.
  - intros later. unfold w', index_members. cbn [store].
    now rewrite find_insert.
Qed.

Lemma outage_before_expire_leaves_entry_for_good_witness :
  exists w',
    check_duplicate_claim Fixtures.fakes 0 Fixtures.pipe_burst down_after_sadd
      = Raise ConnectionError w' /\
    index_members 99999999 (recent_claims_key Fixtures.pipe_burst) (store w')
      = Some {[claim_json Fixtures.fakes Fixtures.pipe_burst]}.
Proof.
  destruct (outage_before_expire_leaves_entry_for_good Fixtures.fakes 0
              Fixtures.pipe_burst down_after_sadd eq_refl eq_refl)
    as [Hraise Hstays].
  eexists. split; [exact Hraise | exact (Hstays 99999999%Z)].
Defined.

(** *** Claim types without coverage *)

Lemma zero_minus_deductible (d : float) :
  PrimFloat.leb 0 d = true -> Py.max (0 - d) 0 = 0%float.
Proof.
  intros Hd. unfold Py.max, Py.gt.
  rewrite FloatAxioms.leb_spec in Hd.
  rewrite FloatAxioms.ltb_spec.
  assert (Hsub : FloatOps.Prim2SF (0 - d)
                 = SpecFloat.SFsub FloatOps.prec FloatOps.emax
                     (FloatOps.Prim2SF 0) (FloatOps.Prim2SF d))
    by apply FloatAxioms.sub_spec.
  replace (FloatOps.Prim2SF 0) with (SpecFloat.S754_zero false) in *
    by reflexivity.
  rewrite Hsub.
  destruct (FloatOps.Prim2SF d) as [s|s| |s m e]; try destruct s;
    try discriminate Hd; try reflexivity.
  - change ((0 - d)%float = 0%float).
    apply FloatAxioms.Prim2SF_inj. rewrite Hsub. reflexivity.
  - change ((0 - d)%float = 0%float).
    apply FloatAxioms.Prim2SF_inj. rewrite Hsub. reflexivity.
Qed.

(** X16: A claim whose type has no entry in the policy's coverage limits is
    covered up to 0: with a deductible that is not negative, its payout
    is 0, whatever amount is claimed. *)
Theorem uncovered_claim_type_pays_nothing claim policy :
  Py.lookup (coverage_limits policy) (claim_type claim) = None ->
  Py.gt (estimated_amount claim) 0 = true ->
  PrimFloat.leb 0 (deductible policy) = true ->
  calculate_payout claim policy = 0%float.
Proof.
  intros Hmissing Hpositive Hdeductible. unfold calculate_payout.
  rewrite (PyFacts.get_absent _ _ _ Hmissing).
  unfold Py.min. unfold Py.gt in Hpositive. unfold Py.lt at 1.
  rewrite Hpositive. now apply zero_minus_deductible.
Qed.

(** A policy that covers water damage only. *)
Definition water_only_policy : Policy :=
  {| status := "active";
     coverage_limits := [("water_damage", 5000%float)];
     deductible := 500 |}.

Lemma uncovered_claim_type_pays_nothing_witness :
  calculate_payout Fixtures.stolen_umbrella water_only_policy = 0%float.
Proof.
  exact (uncovered_claim_type_pays_nothing Fixtures.stolen_umbrella
           water_only_policy eq_refl eq_refl eq_refl).
Defined.

(** *** Lookups that miss the cache *)

(** X11: A lookup that finds nothing under the policy's cache key, or finds the
    empty string there, asks the policy service.  A policy that the
    service knows is cached for 300 seconds, replacing what was there; a
    policy that it does not know is not cached, so that the next lookup
    asks again. *)
Theorem policy_lookup_misses env now policy_id user w :
  reachable_for w = None ->
  let key := "policy:" ++ policy_id in
  (find now key (store w) = None \/
   exists entry, find now key (store w) = Some entry /\
                 value entry = RString "") ->
  validate_policy env now policy_id user w =
  match fetch_policy_from_service env policy_id with
  | None => Return None (logged w [Redis (GET key)])
  | Some policy =>
      Return (Some policy)
        {| store := <[key := {| value := RString (json_dumps_policy env policy);
                                expires_at := Some (now + 300)%Z |}]> (store w);
           reachable_for := None;
           calls := calls w ++ [Redis (GET key);
                                Redis (SETEX key 300
                                         (json_dumps_policy env policy))] |}
  end.
Proof.
  intros Hup key Hmiss.
  assert (Hfetch : forall w0 : World,
            reachable_for w0 = None ->
            match fetch_policy_from_service env policy_id with
            | Some p =>
                bind (redis_setex now key 300 (json_dumps_policy env p))
                  (fun _ => ret (fetch_policy_from_service env policy_id))
            | None => ret (fetch_policy_from_service env policy_id)
            end w0 =
            match fetch_policy_from_service env policy_id with
            | None => Return None w0
            | Some policy =>
                Return (Some policy)
                  {| store :=
                       <[key := {| value := RString (json_dumps_policy env policy);
                                   expires_at := Some (now + 300)%Z |}]>
                         (store w0);
                     reachable_for := None;
                     calls := calls w0 ++
                       [Redis (SETEX key 300 (json_dumps_policy env policy))] |}
            end).
  { intros w0 Hup0. destruct (fetch_policy_from_service env policy_id);
      [|reflexivity].
    now rewrite (bind_eq_Return _ _ _ _ _ (redis_setex_up _ _ _ _ _ Hup0)). }
  unfold validate_policy. fold key.
  assert (Hup1 : reachable_for (logged w [Redis (GET key)]) = None)
    by exact Hup.
  destruct Hmiss as [Hf|(entry & Hf & Hv)].
  - assert (Hget : redis_get now key w
                   = Return None (logged w [Redis (GET key)]))
      by (rewrite (redis_get_up now key w Hup); now rewrite Hf).
    rewrite (bind_eq_Return _ _ _ _ _ Hget), (Hfetch _ Hup1).
    destruct (fetch_policy_from_service env policy_id); [|reflexivity].
    cbn [logged store calls]. now rewrite <- app_assoc.
  - assert (Hget : redis_get now key w
                   = Return (Some "") (logged w [Redis (GET key)]))
      by (rewrite (redis_get_up now key w Hup); now rewrite Hf, Hv).
    rewrite (bind_eq_Return _ _ _ _ _ Hget).
    change (String.eqb "" "") with true. cbv iota.
    rewrite (Hfetch _ Hup1).
    destruct (fetch_policy_from_service env policy_id); [|reflexivity].
    cbn [logged store calls]. now rewrite <- app_assoc.
Qed.

Lemma policy_lookup_misses_witness :
  validate_policy Fixtures.fakes 0 "pol_unknown" "usr_987654321" Fixtures.fresh
  = Return None (logged Fixtures.fresh [Redis (GET "policy:pol_unknown")]).
Proof.
  exact (policy_lookup_misses Fixtures.fakes 0 "pol_unknown" "usr_987654321"
           Fixtures.fresh eq_refl (or_introl eq_refl)).
Defined.

(** *** The keys of a submission *)

Definition touches {A} (keys : list string) (m : M A) : Prop :=
  forall w k, k ∉ keys -> store (final (m w)) !! k = store w !! k.

Lemma touches_of_only {A} key keys (m : M A) :
  key ∈ keys -> touches_only key m -> touches keys m.
Proof.
  intros Hin Hm w k Hk. apply Hm. intros ->. contradiction.
Qed.

Lemma touches_bind {A B} keys (m : M A) (k : A -> M B) :
  touches keys m -> (forall a, touches keys (k a)) -> touches keys (bind m k).
Proof.
  intros Hm Hk w k0 Hne. specialize (Hm w k0 Hne). unfold bind.
  destruct (m w) as [a w1|e w1]; simpl in *; [|exact Hm].
  now rewrite (Hk a w1 k0 Hne).
Qed.

Lemma touches_ret {A} keys (a : A) : touches keys (ret a).
Proof. now intros w k _. Qed.

Lemma touches_raise {A} keys e : touches keys (@raise A e).
Proof. now intros w k _. Qed.

Lemma touches_log keys c : touches keys (log c).
Proof. now intros w k _. Qed.

Lemma touches_submit_claim env now claim :
  touches ["policy:" ++ policy_id claim; recent_claims_key claim]
    (submit_claim env now claim).
Proof.
  unfold submit_claim. apply touches_bind.
  { apply (touches_of_only ("policy:" ++ policy_id claim)); [left|].
    apply touches_only_validate_policy. }
  intros [policy|]; [|apply touches_raise].
  destruct (negb _); [apply touches_raise|].
  apply touches_bind.
  { apply (touches_of_only (recent_claims_key claim)); [right; left|].
    apply touches_only_check_duplicate_claim. }
  intros dup. destruct (is_duplicate dup); [apply touches_ret|].
  apply touches_bind; [apply touches_log|]. intros _.
  destruct (instant_approval _ _);
    repeat (apply touches_bind; [apply touches_log|]; intros _);
    apply touches_ret.
Qed.

(** X17: A submission, however it ends, writes to no key of the store but the
    cache entry of its own policy and the index of its own claimant: the
    index of another claimant and the cache entry of another policy are
    what they were before. *)
Theorem submission_isolation env now claim other w :
  user_id other <> user_id claim ->
  policy_id other <> policy_id claim ->
  let w' := final (submit_claim env now claim w) in
  store w' !! recent_claims_key other = store w !! recent_claims_key other /\
  store w' !! ("policy:" ++ policy_id other)
  = store w !! ("policy:" ++ policy_id other).
Proof.
  intros Huser Hpolicy w'. split; apply touches_submit_claim.
  - intros Hin. apply elem_of_cons in Hin as [H|Hin].
    + exact (policy_key_ne_claims_key _ _ (eq_sym H)).
    + apply list_elem_of_singleton in Hin.
      apply Huser. exact (recent_claims_key_inj _ _ Hin).
  - intros Hin. apply elem_of_cons in Hin as [H|Hin].
    + apply Hpolicy. rewrite !append_cons in H. now simplify_eq.
    + apply list_elem_of_singleton in Hin.
      exact (policy_key_ne_claims_key _ _ Hin).
Qed.

(** A claim of another claimant under another policy. *)
Definition stranger_claim : ClaimRequest :=
  {| claim_id := "clm_7";
     policy_id := "pol_555555555";
     user_id := "usr_222222222";
     claim_type := "theft";
     incident_date := 1705329000;
     description := "Bicycle stolen from garage";
     estimated_amount := 800;
     video_evidence_url := None;
     photos := [];
     location := [("lat", 40.7128%float); ("lng", (-74.0060)%float)] |}.

Lemma submission_isolation_witness :
  let w' :=
    final (submit_claim Fixtures.fakes 0 Fixtures.pipe_burst Fixtures.fresh) in
  store w' !! recent_claims_key stranger_claim = None /\
  store w' !! ("policy:" ++ policy_id stranger_claim) = None.
Proof.
  destruct (submission_isolation Fixtures.fakes 0 Fixtures.pipe_burst
              stranger_claim Fixtures.fresh) as [Hindex Hcache];
    [discriminate | discriminate |].
  cbv zeta. rewrite Hindex, Hcache. split; reflexivity.
Defined.

End ClaimsExtra.
